(** * MapSync front end: trip draft form and identity session manager

    A shallow embedding of the logic of
    - [src/components/TripModal.tsx] (delegated creation through
      [createTrip], module [Delegated] below),
    - the second revision of the same component that posts the draft
      straight to the backend (module [DirectHttp] below), and
    - [src/contexts/AuthContext.tsx] (module [Auth] below),
    together with the properties the specification states about them. *)

From Stdlib Require Import List NArith ZArith String Ascii Bool Lia Floats DecimalString.
From Stdlib Require Import DecimalNat FinFun.
From stdpp Require Import gmap.

Set Default Proof Using "Type".
Set Warnings "-register-all,-inexact-float".
Open Scope list_scope.

(** ** JavaScript strings

    A JavaScript string is a sequence of UTF-16 code units.  Literals of
    the source are ASCII and are written with [js]. *)

Definition code_unit := N.
Abbreviation jsstring := (list code_unit).

Definition js (s : string) : jsstring :=
  map N_of_ascii (list_ascii_of_string s).

(** Truthiness of a string: only the empty string is falsy. *)
Definition truthy (s : jsstring) : bool :=
  match s with
  | [] => false
  | _ :: _ => true
  end.

(** [WhiteSpace] and [LineTerminator] code points of ECMAScript, the
    characters [String.prototype.trim] strips. *)
Definition isWhiteSpace (c : code_unit) : bool :=
  ((c =? 0x09) || (c =? 0x0A) || (c =? 0x0B) || (c =? 0x0C) || (c =? 0x0D)
   || (c =? 0x20) || (c =? 0xA0) || (c =? 0x1680)
   || ((0x2000 <=? c) && (c <=? 0x200A))
   || (c =? 0x2028) || (c =? 0x2029) || (c =? 0x202F) || (c =? 0x205F)
   || (c =? 0x3000) || (c =? 0xFEFF))%N.

Fixpoint trimStart (s : jsstring) : jsstring :=
  match s with
  | [] => []
  | c :: s' => if isWhiteSpace c then trimStart s' else s
  end.

Definition trimEnd (s : jsstring) : jsstring :=
  rev (trimStart (rev s)).

(** [s.trim()] *)
Definition trim (s : jsstring) : jsstring :=
  trimEnd (trimStart s).

(** A text with no white space at either end. *)
Definition trimmed (s : jsstring) : Prop :=
  trimStart s = s /\ trimStart (rev s) = rev s.

(** [s.startsWith(p)] *)
Fixpoint startsWith (p s : jsstring) : bool :=
  match p, s with
  | [], _ => true
  | _ :: _, [] => false
  | a :: p', b :: s' => (a =? b)%N && startsWith p' s'
  end.

(** [s.includes(p)]: [p] occurs in [s] at some position. *)
Fixpoint includes (p s : jsstring) : bool :=
  startsWith p s ||
  match s with
  | [] => false
  | _ :: s' => includes p s'
  end.

(** ** Arrays *)

(** [l.filter((x, i) => f x i)], with [i] counting from [start]. *)
Fixpoint filter_from {A : Type} (f : A -> nat -> bool) (start : nat) (l : list A)
  : list A :=
  match l with
  | [] => []
  | x :: l' =>
      if f x start then x :: filter_from f (S start) l'
      else filter_from f (S start) l'
  end.

(** [l.map((x, i) => f x i)], with [i] counting from [start]. *)
Fixpoint map_from {A B : Type} (f : A -> nat -> B) (start : nat) (l : list A)
  : list B :=
  match l with
  | [] => []
  | x :: l' => f x start :: map_from f (S start) l'
  end.

(** ** Numbers, thrown values and promises *)

(** A JavaScript number is an IEEE 754 binary64 value. *)
Abbreviation number := float.

Record LatLng := { lat : number; lng : number }.

(** What a [throw] (or a rejected promise) carries. *)
Inductive thrown :=
| Error (message : jsstring)      (* [new Error(message)] *)
| TypeError                       (* raised by the runtime *)
| External (tag : N).             (* whatever a collaborator rejected with *)

(** How an awaited promise settles. *)
Inductive settled (A : Type) :=
| Fulfilled (a : A)
| Rejected (e : thrown).
Arguments Fulfilled {A} a.
Arguments Rejected {A} e.

(** The text of a non-negative integer, as a template literal prints it. *)
Definition decimal (n : nat) : jsstring :=
  js (NilEmpty.string_of_uint (Nat.to_uint n)).

(** A value produced by [JSON.parse]. *)
Inductive json :=
| JNull
| JBool (b : bool)
| JNumber (n : number)
| JString (s : jsstring)
| JArray (items : list json)
| JObject (fields : gmap jsstring json).

(** A value a variable can hold once a property read is involved. *)
Inductive jsvalue :=
| Undefined
| Value (v : json).

(** [const { key } = v]: reading from [null] throws, an object gives its
    property or [undefined], and every other JSON value has no such
    property. *)
Definition destructure (key : jsstring) (v : json) : settled jsvalue :=
  match v with
  | JNull => Rejected TypeError
  | JObject fields =>
      match fields !! key with
      | Some x => Fulfilled (Value x)
      | None => Fulfilled Undefined
      end
  | JBool _ | JNumber _ | JString _ | JArray _ => Fulfilled Undefined
  end.

(** ** Asynchronous handlers

    An [async] function runs until its next [await], where the component
    is rendered from the state reached so far, and resumes with the way
    the awaited promise settled.  Synchronous calls to collaborators that
    return nothing of interest are recorded as effects. *)

Section Process.
Variables (St call effect : Type) (reply : call -> Type).

Inductive process :=
| Return (s : St) (r : settled unit)
| Emit (e : effect) (k : process)
| Await (s : St) (c : call) (k : settled (reply c) -> process).

Inductive event :=
| Effect (e : effect)
| Called (s : St) (c : call).

Record outcome := { trace : list event; final : St; result : settled unit }.

(** Runs a handler to completion against collaborators that answer the
    call [c] with [env c]. *)
Fixpoint run (env : forall c, settled (reply c)) (p : process) : outcome :=
  match p with
  | Return s r => {| trace := []; final := s; result := r |}
  | Emit e k =>
      let o := run env k in
      {| trace := Effect e :: trace o; final := final o; result := result o |}
  | Await s c k =>
      let o := run env (k (env c)) in
      {| trace := Called s c :: trace o; final := final o; result := result o |}
  end.

(** The calls of a trace, and the states the component showed while
    they were pending. *)
Fixpoint calls (t : list event) : list call :=
  match t with
  | [] => []
  | Effect _ :: t' => calls t'
  | Called _ c :: t' => c :: calls t'
  end.

Fixpoint pending (t : list event) : list St :=
  match t with
  | [] => []
  | Effect _ :: t' => pending t'
  | Called s _ :: t' => s :: pending t'
  end.
End Process.

Arguments Return {St call effect reply} s r.
Arguments Emit {St call effect reply} e k.
Arguments Await {St call effect reply} s c k.
Arguments Effect {St call effect} e.
Arguments Called {St call effect} s c.
Arguments run {St call effect reply} env p.
Arguments calls {St call effect} t.
Arguments pending {St call effect} t.
Arguments trace {St call effect} o.
Arguments final {St call effect} o.
Arguments result {St call effect} o.

(** ** Identity session manager ([AuthContext.tsx]) *)

Module Auth.

Record User := {
  uid : jsstring;
  displayName : option jsstring;
  email : option jsstring;
  photoURL : option jsstring
}.

(** The fields of the provider's user object the component reads. *)
Record FirebaseUser := {
  fb_uid : jsstring;
  fb_displayName : option jsstring;
  fb_email : option jsstring;
  fb_photoURL : option jsstring
}.

Record UserCredential := { user : FirebaseUser }.

(** The two state cells of [AuthProvider], and the browser's local
    storage, which [logout] writes to. *)
Record State := {
  currentUser : option User;
  loading : bool;
  localStorage : gmap jsstring jsstring
}.

Definition initial (storage : gmap jsstring jsstring) : State :=
  {| currentUser := None; loading := true; localStorage := storage |}.

Definition setCurrentUser (u : option User) (s : State) : State :=
  {| currentUser := u; loading := loading s; localStorage := localStorage s |}.

Definition setLoading (b : bool) (s : State) : State :=
  {| currentUser := currentUser s; loading := b; localStorage := localStorage s |}.

Definition removeItem (key : jsstring) (s : State) : State :=
  {| currentUser := currentUser s; loading := loading s;
     localStorage := delete key (localStorage s) |}.

Definition snapshot (u : FirebaseUser) : User :=
  {| uid := fb_uid u; displayName := fb_displayName u;
     email := fb_email u; photoURL := fb_photoURL u |}.

Inductive call :=
| signInWithPopup
| signOut.

Definition reply (c : call) : Type :=
  match c with
  | signInWithPopup => UserCredential
  | signOut => unit
  end.

Inductive effect :=
| console_error (label : jsstring) (e : thrown).

Abbreviation process := (process State call effect reply).

Definition login (s : State) : process :=
  Await s signInWithPopup (fun r =>
    match r with
    | Fulfilled result =>
        Return (setCurrentUser (Some (snapshot (user result))) s) (Fulfilled tt)
    | Rejected error =>
        Emit (console_error (js "Error during login:") error)
          (Return s (Rejected error))
    end).

Definition logout (s : State) : process :=
  Await s signOut (fun r =>
    match r with
    | Fulfilled _ =>
        Return (removeItem (js "user") (setCurrentUser None s)) (Fulfilled tt)
    | Rejected error =>
        Emit (console_error (js "Error during logout:") error)
          (Return s (Rejected error))
    end).

(** The listener registered with [onAuthStateChanged]. *)
Definition authStateChanged (u : option FirebaseUser) (s : State) : State :=
  setLoading false
    match u with
    | Some u => setCurrentUser (Some (snapshot u)) s
    | None => setCurrentUser None s
    end.

End Auth.

(** [currentUser?.uid || fallback] *)
Definition uid_or (currentUser : option Auth.User) (fallback : jsstring) : jsstring :=
  match currentUser with
  | Some u => if truthy (Auth.uid u) then Auth.uid u else fallback
  | None => fallback
  end.

(** ** The draft form: what both revisions of [TripModal] share *)

Record PlaceSuggestion := { description : jsstring; place_id : jsstring }.

Record Form := {
  tripName : jsstring;
  destination : jsstring;
  stops : list jsstring;
  newStop : jsstring;
  isLoading : bool;
  error : jsstring;
  suggestions : list PlaceSuggestion;
  currentLocation : option LatLng
}.

Definition initialForm : Form :=
  {| tripName := []; destination := []; stops := []; newStop := [];
     isLoading := false; error := []; suggestions := [];
     currentLocation := None |}.

Definition setTripName (v : jsstring) (f : Form) : Form :=
  {| tripName := v; destination := destination f; stops := stops f;
     newStop := newStop f; isLoading := isLoading f; error := error f;
     suggestions := suggestions f; currentLocation := currentLocation f |}.

Definition setDestination (v : jsstring) (f : Form) : Form :=
  {| tripName := tripName f; destination := v; stops := stops f;
     newStop := newStop f; isLoading := isLoading f; error := error f;
     suggestions := suggestions f; currentLocation := currentLocation f |}.

Definition setStops (v : list jsstring) (f : Form) : Form :=
  {| tripName := tripName f; destination := destination f; stops := v;
     newStop := newStop f; isLoading := isLoading f; error := error f;
     suggestions := suggestions f; currentLocation := currentLocation f |}.

Definition setNewStop (v : jsstring) (f : Form) : Form :=
  {| tripName := tripName f; destination := destination f; stops := stops f;
     newStop := v; isLoading := isLoading f; error := error f;
     suggestions := suggestions f; currentLocation := currentLocation f |}.

Definition setIsLoading (v : bool) (f : Form) : Form :=
  {| tripName := tripName f; destination := destination f; stops := stops f;
     newStop := newStop f; isLoading := v; error := error f;
     suggestions := suggestions f; currentLocation := currentLocation f |}.

Definition setError (v : jsstring) (f : Form) : Form :=
  {| tripName := tripName f; destination := destination f; stops := stops f;
     newStop := newStop f; isLoading := isLoading f; error := v;
     suggestions := suggestions f; currentLocation := currentLocation f |}.

Definition setSuggestions (v : list PlaceSuggestion) (f : Form) : Form :=
  {| tripName := tripName f; destination := destination f; stops := stops f;
     newStop := newStop f; isLoading := isLoading f; error := error f;
     suggestions := v; currentLocation := currentLocation f |}.

Definition setCurrentLocation (v : option LatLng) (f : Form) : Form :=
  {| tripName := tripName f; destination := destination f; stops := stops f;
     newStop := newStop f; isLoading := isLoading f; error := error f;
     suggestions := suggestions f; currentLocation := v |}.

(** The two callbacks handed to [getCurrentPosition] on mount. *)
Definition locationFound (position : LatLng) (f : Form) : Form :=
  setCurrentLocation (Some {| lat := lat position; lng := lng position |}) f.

Definition locationFailed (f : Form) : Form :=
  setError
    (js "Unable to get your current location. Please enable location services.") f.

Definition getPlaceSuggestions (input : jsstring) (f : Form) : Form :=
  if negb (truthy (trim input)) then setSuggestions [] f
  else
    let mockSuggestions :=
      [ {| description := input ++ js ", New York, USA"; place_id := js "1" |};
        {| description := input ++ js ", California, USA"; place_id := js "2" |};
        {| description := input ++ js ", Texas, USA"; place_id := js "3" |} ] in
    setSuggestions mockSuggestions f.

Definition handleDestinationChange (value : jsstring) (f : Form) : Form :=
  getPlaceSuggestions value (setDestination value f).

Definition handleSuggestionClick (suggestion : PlaceSuggestion) (f : Form) : Form :=
  setSuggestions [] (setDestination (description suggestion) f).

Definition handleAddStop (f : Form) : Form :=
  if truthy (trim (newStop f)) then
    setNewStop [] (setStops (stops f ++ [trim (newStop f)]) f)
  else f.

(** The callback [(_, i) => i !== index]. *)
Definition keep_except {A : Type} (index : Z) : A -> nat -> bool :=
  fun _ i => negb (Z.of_nat i =? index)%Z.

Definition handleRemoveStop (index : Z) (f : Form) : Form :=
  setStops (filter_from (keep_except index) 0 (stops f)) f.

(** The guard at the head of [handleSubmit]:
    [!tripName || !destination || !currentLocation]. *)
Definition incomplete (f : Form) : bool :=
  negb (truthy (tripName f)) || negb (truthy (destination f))
  || negb (bool_decide (is_Some (currentLocation f))).

(** A draft that names a trip and a destination and knows where it
    starts from. *)
Definition complete (f : Form) : Prop :=
  tripName f <> [] /\ destination f <> [] /\ is_Some (currentLocation f).

(** What the stops list is meant to hold: non-empty texts that are their
    own trimmed form. *)
Definition well_formed_stop (s : jsstring) : Prop :=
  s <> [] /\ trim s = s.

Definition validation_message : jsstring :=
  js "Please fill in all required fields and ensure location services are enabled".

Definition failure_message : jsstring :=
  js "Failed to create trip. Please try again.".

(** What the user (or the geolocation service) can do to the draft
    apart from submitting it. *)
Inductive edit :=
| TypeTripName (value : jsstring)
| TypeDestination (value : jsstring)
| ClickSuggestion (suggestion : PlaceSuggestion)
| TypeNewStop (value : jsstring)
| AddStop
| RemoveStop (index : Z)
| LocationFound (position : LatLng)
| LocationFailed.

Definition apply_edit (e : edit) (f : Form) : Form :=
  match e with
  | TypeTripName value => setTripName value f
  | TypeDestination value => handleDestinationChange value f
  | ClickSuggestion suggestion => handleSuggestionClick suggestion f
  | TypeNewStop value => setNewStop value f
  | AddStop => handleAddStop f
  | RemoveStop index => handleRemoveStop index f
  | LocationFound position => locationFound position f
  | LocationFailed => locationFailed f
  end.

(** ** Submission delegated to [createTrip] ([TripModal.tsx]) *)

Module Delegated.

Module Place.
Record t := { name : jsstring; location : LatLng }.
End Place.

Module Stop.
Record t := { id : jsstring; name : jsstring; location : LatLng }.
End Stop.

Module TripData.
Record t := {
  name : jsstring;
  origin : Place.t;
  destination : Place.t;
  stops : list Stop.t;
  participants : list jsstring;
  createdBy : jsstring
}.
End TripData.

(** The collaborator of [TripContext]; it resolves to the new trip's id. *)
Inductive call :=
| createTrip (tripData : TripData.t).

Definition reply (c : call) : Type := jsstring.

Inductive effect :=
| preventDefault
| onClose
| navigate (path : jsstring)
| console_error (e : thrown).

Abbreviation process := (process Form call effect reply).

(** [mockCoordinates(place)]; [random k] is what the [k]-th call of
    [Math.random()] made by the handler returns. *)
Definition mockCoordinates (random : nat -> number) (k : nat) : LatLng :=
  {| lat := 37.7749 + random k * 5;
     lng := -122.4194 + random (S k) * 5 |}.

Definition tripData (currentUser : option Auth.User) (random : nat -> number)
    (here : LatLng) (f : Form) : TripData.t :=
  let stopsData :=
    map_from (fun stop index =>
      {| Stop.id := js "stop" ++ decimal index;
         Stop.name := stop;
         Stop.location := mockCoordinates random (2 * index) |}) 0 (stops f) in
  {| TripData.name := tripName f;
     TripData.origin :=
       {| Place.name := js "Current Location"; Place.location := here |};
     TripData.destination :=
       {| Place.name := destination f;
          Place.location := mockCoordinates random (2 * length (stops f)) |};
     TripData.stops := stopsData;
     TripData.participants := [uid_or currentUser (js "user123")];
     TripData.createdBy := uid_or currentUser (js "user123") |}.

(** The guard returns before the [try]; past it [currentLocation] is
    known not to be [null], so the [None] branch of the match is never
    taken (see [incomplete_false]).  The [finally] block is the last
    [setIsLoading false] of either branch. *)
Definition handleSubmit (currentUser : option Auth.User) (random : nat -> number)
    (f : Form) : process :=
  Emit preventDefault
    (if incomplete f then Return (setError validation_message f) (Fulfilled tt)
     else
       match currentLocation f with
       | None => Return (setError validation_message f) (Fulfilled tt)
       | Some here =>
           let f1 := setError [] (setIsLoading true f) in
           Await f1 (createTrip (tripData currentUser random here f)) (fun r =>
             match r with
             | Fulfilled tripId =>
                 Emit onClose
                   (Emit (navigate (js "/trip/" ++ tripId))
                      (Return (setIsLoading false f1) (Fulfilled tt)))
             | Rejected err =>
                 Emit (console_error err)
                   (Return (setIsLoading false (setError failure_message f1))
                      (Fulfilled tt))
             end)
       end).

(** Whether the collaborator created the trip. *)
Definition created (env : forall c, settled (reply c)) (t : TripData.t) : bool :=
  match env (createTrip t) with
  | Fulfilled _ => true
  | Rejected _ => false
  end.

Inductive action :=
| Edit (e : edit)
| Submit (currentUser : option Auth.User) (random : nat -> number)
         (env : forall c, settled (reply c)).

Definition step (f : Form) (a : action) : Form :=
  match a with
  | Edit e => apply_edit e f
  | Submit currentUser random env => final (run env (handleSubmit currentUser random f))
  end.

Definition after (actions : list action) : Form :=
  fold_left step actions initialForm.

End Delegated.

(** ** Submission posted to the backend (the share-link revision) *)

Module DirectHttp.

Record State := {
  form : Form;
  shareableLink : jsvalue;
  showShareView : bool
}.

Definition initial : State :=
  {| form := initialForm; shareableLink := Value (JString []);
     showShareView := false |}.

Definition onForm (g : Form -> Form) (s : State) : State :=
  {| form := g (form s); shareableLink := shareableLink s;
     showShareView := showShareView s |}.

Definition setShareableLink (v : jsvalue) (s : State) : State :=
  {| form := form s; shareableLink := v; showShareView := showShareView s |}.

Definition setShowShareView (v : bool) (s : State) : State :=
  {| form := form s; shareableLink := shareableLink s; showShareView := v |}.

Module Place.
Record t := { name : jsstring; location : LatLng }.
End Place.

Module TripData.
Record t := {
  name : jsstring;
  origin : Place.t;
  destination : Place.t;
  stops : list Place.t;
  createdBy : jsstring
}.
End TripData.

(** The second argument of [fetch]; [body] stands for the text
    [JSON.stringify(body)]. *)
Record RequestInit := {
  method : jsstring;
  headers : gmap jsstring jsstring;
  body : TripData.t
}.

Record Response := { status : N }.

(** [response.ok]: the status is in the range 200 to 299. *)
Definition ok (r : Response) : bool :=
  ((200 <=? status r) && (status r <=? 299))%N.

Inductive call :=
| fetch (url : jsstring) (init : RequestInit)
| response_json (r : Response).

Definition reply (c : call) : Type :=
  match c with
  | fetch _ _ => Response
  | response_json _ => json
  end.

Inductive effect :=
| preventDefault
| console_error (e : thrown).

Abbreviation process := (process State call effect reply).

Definition zero : LatLng := {| lat := 0; lng := 0 |}.

Definition tripData (currentUser : option Auth.User) (here : LatLng) (f : Form)
  : TripData.t :=
  {| TripData.name := tripName f;
     TripData.origin :=
       {| Place.name := js "Current Location"; Place.location := here |};
     TripData.destination :=
       {| Place.name := destination f; Place.location := zero |};
     TripData.stops :=
       map (fun stop => {| Place.name := stop; Place.location := zero |}) (stops f);
     TripData.createdBy := uid_or currentUser [] |}.

Definition request (t : TripData.t) : call :=
  fetch (js "https://mapsync.onrender.com/newtrip")
    {| method := js "POST";
       headers := {[ js "Content-Type" := js "application/json" ]};
       body := t |}.

(** The [catch] block followed by the [finally] block. *)
Definition failed (err : thrown) (s : State) : process :=
  Emit (console_error err)
    (Return (onForm (setIsLoading false) (onForm (setError failure_message) s))
       (Fulfilled tt)).

(** As in the other revision, the [None] branch of the match lies behind
    the guard and is never taken. *)
Definition handleSubmit (currentUser : option Auth.User) (s : State) : process :=
  Emit preventDefault
    (if incomplete (form s) then
       Return (onForm (setError validation_message) s) (Fulfilled tt)
     else
       match currentLocation (form s) with
       | None => Return (onForm (setError validation_message) s) (Fulfilled tt)
       | Some here =>
           let s1 := onForm (setError []) (onForm (setIsLoading true) s) in
           Await s1 (request (tripData currentUser here (form s))) (fun r =>
             match r with
             | Rejected err => failed err s1
             | Fulfilled response =>
                 if negb (ok response) then
                   failed (Error (js "Failed to create trip")) s1
                 else
                   Await s1 (response_json response) (fun parsed =>
                     match parsed with
                     | Rejected err => failed err s1
                     | Fulfilled data =>
                         match destructure (js "shareLink") data with
                         | Rejected err => failed err s1
                         | Fulfilled shareLink =>
                             Return
                               (onForm (setIsLoading false)
                                  (setShowShareView true
                                     (setShareableLink shareLink s1)))
                               (Fulfilled tt)
                         end
                     end)
             end)
       end).

(** The state shown while the request is pending, and the one the
    [catch] and [finally] blocks leave. *)
Definition submitting (s : State) : State :=
  onForm (setError []) (onForm (setIsLoading true) s).

Definition given_up (s : State) : State :=
  onForm (setIsLoading false) (onForm (setError failure_message) (submitting s)).

(** Whether the backend created the trip and said so in a body the
    handler could read: the request was answered, with a status from 200
    to 299, and the body parsed to something other than [null]. *)
Definition created (env : forall c, settled (reply c)) (t : TripData.t) : bool :=
  match env (request t) with
  | Fulfilled response =>
      ok response &&
      match env (response_json response) with
      | Fulfilled JNull => false
      | Fulfilled _ => true
      | Rejected _ => false
      end
  | Rejected _ => false
  end.

(** The calls that ask the backend for a new trip. *)
Definition is_fetch (c : call) : bool :=
  match c with
  | fetch _ _ => true
  | response_json _ => false
  end.

Inductive action :=
| Edit (e : edit)
| Submit (currentUser : option Auth.User) (env : forall c, settled (reply c)).

Definition step (s : State) (a : action) : State :=
  match a with
  | Edit e => onForm (apply_edit e) s
  | Submit currentUser env => final (run env (handleSubmit currentUser s))
  end.

Definition after (actions : list action) : State :=
  fold_left step actions initial.

End DirectHttp.

(** ** Sample drafts and collaborators *)

Definition three_stops : Form :=
  setNewStop (js "Lake Tahoe")
    (setStops [js "Reno"; js "Reno"; js "Tonopah"] initialForm).

(** The draft of the scenario: origin resolved, a name, a destination
    and no stops. *)
Definition weekend : Form :=
  locationFound {| lat := 40.7; lng := -74.0 |}
    (setDestination (js "Boston, MA") (setTripName (js "Weekend Trip") initialForm)).

Definition weekend_shared : DirectHttp.State :=
  DirectHttp.onForm (fun _ => weekend) DirectHttp.initial.

Definition nameless : DirectHttp.State :=
  DirectHttp.onForm (setTripName []) weekend_shared.

Definition alice : Auth.User :=
  {| Auth.uid := js "u-42"; Auth.displayName := Some (js "Alice");
     Auth.email := None; Auth.photoURL := None |}.

(** A session whose uid is the empty string. *)
Definition blank_uid : Auth.User :=
  {| Auth.uid := []; Auth.displayName := Some (js "Alice");
     Auth.email := None; Auth.photoURL := None |}.

Definition half (k : nat) : number := 0.5%float.

(** [createTrip] resolving to the id ["t1"], and rejecting. *)
Definition creates : forall c, settled (Delegated.reply c) :=
  fun _ => Fulfilled (js "t1").

Definition declines : forall c, settled (Delegated.reply c) :=
  fun _ => Rejected (External 1).

(** A backend answering with the given status and body. *)
Definition answers (code : N) (data : json) : forall c, settled (DirectHttp.reply c) :=
  fun c =>
    match c return settled (DirectHttp.reply c) with
    | DirectHttp.fetch _ _ => Fulfilled {| DirectHttp.status := code |}
    | DirectHttp.response_json _ => Fulfilled data
    end.

Definition link_body : json :=
  JObject {[ js "shareLink" := JString (js "https://mapsync.example/t/1") ]}.

(** An identity provider that rejects every call, and one that signs
    [alice] in and out. *)
Definition provider_down : forall c, settled (Auth.reply c) :=
  fun c =>
    match c return settled (Auth.reply c) with
    | Auth.signInWithPopup => Rejected (External 7)
    | Auth.signOut => Rejected (External 7)
    end.

Definition provider_up : forall c, settled (Auth.reply c) :=
  fun c =>
    match c return settled (Auth.reply c) with
    | Auth.signInWithPopup =>
        Fulfilled {| Auth.user :=
          {| Auth.fb_uid := js "u-42"; Auth.fb_displayName := Some (js "Alice");
             Auth.fb_email := None; Auth.fb_photoURL := None |} |}
    | Auth.signOut => Fulfilled tt
    end.

Definition signed_in : Auth.State :=
  {| Auth.currentUser := Some alice; Auth.loading := false;
     Auth.localStorage := {[ js "user" := js "alice"; js "theme" := js "dark" ]} |}.

(** A draft whose name and destination are white space only. *)
Definition blank_names : DirectHttp.State :=
  DirectHttp.onForm
    (fun f => setStops [js "Reno"] (setDestination (js " ") (setTripName (js "  ") f)))
    weekend_shared.

(** The edit that resolves the origin. *)
Definition finds_location (e : edit) : bool :=
  match e with
  | LocationFound _ => true
  | _ => false
  end.

(** The list of suggestions is closed, or is the one the lookup gives
    for the text in the destination field. *)
Definition suggestions_current (f : Form) : Prop :=
  suggestions f = []
  \/ suggestions f = suggestions (getPlaceSuggestions (destination f) initialForm).

(** ** What the components render *)

(** [{error && <div>...</div>}]: the banner shows a non-empty message. *)
Definition error_shown (f : Form) : bool := truthy (error f).

(** [disabled={isLoading}] on the submit button. *)
Definition submit_disabled (f : Form) : bool := isLoading f.

(** [{isLoading ? 'Creating...' : 'Create Trip'}] ([TripModal.tsx]). *)
Definition submit_label (f : Form) : jsstring :=
  if isLoading f then js "Creating..." else js "Create Trip".

(** [{suggestions.length > 0 && ...}] *)
Definition suggestions_shown (f : Form) : bool :=
  match suggestions f with
  | [] => false
  | _ :: _ => true
  end.

(** The synchronous effects of a trace. *)
Fixpoint effects {St call effect : Type} (t : list (event St call effect))
  : list effect :=
  match t with
  | [] => []
  | Effect e :: t' => e :: effects t'
  | Called _ _ :: t' => effects t'
  end.

(** ** The session over time ([AuthProvider]) *)

Module Session.

(** What can happen to the provider component: a caller invokes [login]
    or [logout] (the identity provider answering as [env] says), or the
    identity provider notifies the [onAuthStateChanged] listener. *)
Inductive action :=
| Login (env : forall c, settled (Auth.reply c))
| Logout (env : forall c, settled (Auth.reply c))
| Notify (u : option Auth.FirebaseUser).

Definition step (s : Auth.State) (a : action) : Auth.State :=
  match a with
  | Login env => final (run env (Auth.login s))
  | Logout env => final (run env (Auth.logout s))
  | Notify u => Auth.authStateChanged u s
  end.

Definition after (storage : gmap jsstring jsstring) (actions : list action)
  : Auth.State :=
  fold_left step actions (Auth.initial storage).

Definition is_notify (a : action) : bool :=
  match a with
  | Notify _ => true
  | Login _ | Logout _ => false
  end.

(** [{!loading && children}] *)
Definition children_rendered (s : Auth.State) : bool := negb (Auth.loading s).

End Session.

(** The session manager takes the uid of its session from the identity
    provider: when the provider never hands out an empty uid, no session
    it holds has one. *)
Definition provider_uid_given (a : Session.action) : Prop :=
  match a with
  | Session.Login env =>
      match env Auth.signInWithPopup with
      | Fulfilled credential => Auth.fb_uid (Auth.user credential) <> []
      | Rejected _ => True
      end
  | Session.Logout _ => True
  | Session.Notify (Some u) => Auth.fb_uid u <> []
  | Session.Notify None => True
  end.

(** ** Sharing the link (the share-link revision) *)

Module Share.

(** The set [uriUnreserved] of ECMAScript: letters, digits and the marks
    [-_.!~*'()]; [encodeURIComponent] copies these and escapes the rest. *)
Definition is_unreserved (c : code_unit) : bool :=
  (((0x41 <=? c) && (c <=? 0x5A)) || ((0x61 <=? c) && (c <=? 0x7A))
   || ((0x30 <=? c) && (c <=? 0x39))
   || (c =? 0x2D) || (c =? 0x5F) || (c =? 0x2E) || (c =? 0x21) || (c =? 0x7E)
   || (c =? 0x2A) || (c =? 0x27) || (c =? 0x28) || (c =? 0x29))%N.

Definition is_leading (c : code_unit) : bool :=
  ((0xD800 <=? c) && (c <=? 0xDBFF))%N.

Definition is_trailing (c : code_unit) : bool :=
  ((0xDC00 <=? c) && (c <=? 0xDFFF))%N.

(** The code point of a surrogate pair. *)
Definition pair_code_point (c d : code_unit) : N :=
  ((c - 0xD800) * 0x400 + (d - 0xDC00) + 0x10000)%N.

(** The octets of the UTF-8 encoding of a code point. *)
Definition utf8 (cp : N) : list N :=
  (if cp <? 0x80 then [cp]
   else if cp <? 0x800 then [0xC0 + cp / 0x40; 0x80 + cp mod 0x40]
   else if cp <? 0x10000 then
     [0xE0 + cp / 0x1000; 0x80 + (cp / 0x40) mod 0x40; 0x80 + cp mod 0x40]
   else
     [0xF0 + cp / 0x40000; 0x80 + (cp / 0x1000) mod 0x40;
      0x80 + (cp / 0x40) mod 0x40; 0x80 + cp mod 0x40])%N.

(** One upper-case hexadecimal digit. *)
Definition hex_digit (n : N) : code_unit :=
  (if n <? 10 then 0x30 + n else 0x41 + (n - 10))%N.

(** ["%XX"] for one octet. *)
Definition percent (octet : N) : jsstring :=
  [0x25%N; hex_digit (octet / 16); hex_digit (octet mod 16)].

Definition escape (cp : N) : jsstring :=
  concat (map percent (utf8 cp)).

(** [encodeURIComponent(s)]; [None] stands for the [URIError] thrown at
    a surrogate that has no partner. *)
Fixpoint encodeURIComponent (s : jsstring) : option jsstring :=
  match s with
  | [] => Some []
  | c :: rest =>
      if is_unreserved c then
        match encodeURIComponent rest with
        | Some out => Some (c :: out)
        | None => None
        end
      else if is_trailing c then None
      else if is_leading c then
        match rest with
        | d :: rest' =>
            if is_trailing d then
              match encodeURIComponent rest' with
              | Some out => Some (escape (pair_code_point c d) ++ out)
              | None => None
              end
            else None
        | [] => None
        end
      else
        match encodeURIComponent rest with
        | Some out => Some (escape c ++ out)
        | None => None
        end
  end.

(** [s.isWellFormed()]: every surrogate is half of a pair. *)
Fixpoint isWellFormed (s : jsstring) : bool :=
  match s with
  | [] => true
  | c :: rest =>
      if is_trailing c then false
      else if is_leading c then
        match rest with
        | d :: rest' => is_trailing d && isWellFormed rest'
        | [] => false
        end
      else isWellFormed rest
  end.

Inductive effect :=
| clipboard_writeText (text : jsstring)
| window_open (url target : jsstring).

(** [handleCopyLink], for a link that is a string. *)
Definition handleCopyLink (shareableLink : jsstring) : list effect :=
  [clipboard_writeText shareableLink].

(** [handleShare(platform)], for a link that is a string: the effects of
    the call, or [None] when [encodeURIComponent] throws (nothing catches
    it).  The [switch] has no default, so any other platform leaves
    [shareUrl] empty and no window is opened. *)
Definition handleShare (platform shareableLink : jsstring) : option (list effect) :=
  let text := js "Join my trip on MapSync: " ++ shareableLink in
  let shareUrl :=
    if bool_decide (platform = js "facebook") then
      match encodeURIComponent shareableLink with
      | Some u => Some (js "https://www.facebook.com/sharer/sharer.php?u=" ++ u)
      | None => None
      end
    else if bool_decide (platform = js "twitter") then
      match encodeURIComponent text with
      | Some u => Some (js "https://twitter.com/intent/tweet?text=" ++ u)
      | None => None
      end
    else if bool_decide (platform = js "whatsapp") then
      match encodeURIComponent text with
      | Some u => Some (js "https://wa.me/?text=" ++ u)
      | None => None
      end
    else Some [] in
  match shareUrl with
  | Some url => Some (if truthy url then [window_open url (js "_blank")] else [])
  | None => None
  end.

(** The platforms the [switch] knows. *)
Definition known_platform (platform : jsstring) : bool :=
  bool_decide (platform = js "facebook") || bool_decide (platform = js "twitter")
  || bool_decide (platform = js "whatsapp").

(** A string whose code units are 16 bits wide. *)
Definition code_units (s : jsstring) : Prop :=
  Forall (fun c => (c < 0x10000)%N) s.

(** The characters an encoded component is made of: the unreserved ones
    and the percent sign.  None of [& = ? # + / :] or the space is among
    them. *)
Definition component_char (c : code_unit) : bool :=
  is_unreserved c || (c =? 0x25)%N.

End Share.

(** ** What the share-link revision evaluates when it renders *)

Module Render.

(** The names the module binds: its imports (lines 1 to 5). *)
Definition imported : list string :=
  ["React"; "useState"; "useEffect"; "useNavigate"; "useTrip"; "useAuth";
   "X"; "Plus"; "Copy"]%string.

(** Truthiness of a value, as [{shareableLink && ...}] tests it. *)
Definition value_truthy (v : jsvalue) : bool :=
  match v with
  | Undefined | Value JNull => false
  | Value (JBool b) => b
  | Value (JNumber n) => PrimFloat.eqb n n && negb (PrimFloat.eqb n 0)
  | Value (JString s) => truthy s
  | Value (JArray _) | Value (JObject _) => true
  end.

(** The component names the returned JSX evaluates, in order: the close
    icon of the header, then either the share view (lines 340 to 402) or
    the form (lines 190 to 338), where each stop is drawn with [MapPin]
    and [X] and the link box with [Copy].  Lower-case tags are not
    names. *)
Definition components (s : DirectHttp.State) : list string :=
  ("X" ::
   if DirectHttp.showShareView s then
     ["Copy"; "Share2"; "Facebook"; "Twitter"; "WhatsApp"]
   else
     flat_map (fun _ => ["MapPin"; "X"]) (stops (DirectHttp.form s))
     ++ ["Plus"]
     ++ (if value_truthy (DirectHttp.shareableLink s) then ["Copy"] else []))%string.

Inductive view :=
| FormView
| ShareView.

(** What a render gives: a view, or the [ReferenceError] thrown at the
    first name that nothing binds. *)
Inductive rendered :=
| Shown (v : view)
| ReferenceError (name : string).

Definition render (s : DirectHttp.State) : rendered :=
  match List.find (fun name => negb (existsb (String.eqb name) imported))
          (components s) with
  | Some name => ReferenceError name
  | None => Shown (if DirectHttp.showShareView s then ShareView else FormView)
  end.

End Render.

(** * Properties *)

(** ** The definitions on sample inputs *)

Example trim_both_ends : trim (js "  Lake Tahoe ") = js "Lake Tahoe".
Proof. reflexivity. Qed.

Example trim_line_breaks : trim [0x09; 0x0A; 0x41; 0x20; 0x42; 0x0D; 0xA0; 0x2003]%N = js "A B".
Proof. reflexivity. Qed.

Example trim_blank : trim (js "   ") = [].
Proof. reflexivity. Qed.

Example includes_inside : includes (js "Tahoe") (js "Lake Tahoe, CA") = true.
Proof. reflexivity. Qed.

Example includes_absent : includes (js "Reno") (js "Lake Tahoe, CA") = false.
Proof. reflexivity. Qed.

Example decimal_twelve : decimal 12 = js "12".
Proof. reflexivity. Qed.

Example stop_ids :
  map Delegated.Stop.id
    (Delegated.TripData.stops
       (Delegated.tripData None half {| lat := 40.7; lng := -74.0 |} three_stops))
  = [js "stop0"; js "stop1"; js "stop2"].
Proof. reflexivity. Qed.

Example delegated_trace :
  trace (run creates (Delegated.handleSubmit (Some alice) half weekend))
  = [Effect Delegated.preventDefault;
     Called (setError [] (setIsLoading true weekend))
       (Delegated.createTrip
          (Delegated.tripData (Some alice) half {| lat := 40.7; lng := -74.0 |} weekend));
     Effect Delegated.onClose;
     Effect (Delegated.navigate (js "/trip/t1"))].
Proof. reflexivity. Qed.

Example login_sets_user :
  Auth.currentUser (final (run provider_up (Auth.login (Auth.initial ∅)))) = Some alice.
Proof. reflexivity. Qed.

(** ** Strings *)

Section Strings.
Implicit Types (s t p : jsstring) (c : code_unit).

Lemma truthy_true s : truthy s = true <-> s <> [].
Proof. destruct s; simpl; split; congruence. Qed.

Lemma truthy_false s : truthy s = false <-> s = [].
Proof. destruct s; simpl; split; congruence. Qed.

(** [trimStart] removes a run of white space and nothing else. *)
Lemma trimStart_split s :
  exists pre, s = pre ++ trimStart s /\ forallb isWhiteSpace pre = true.
Proof.
  induction s as [|c s [pre [Hs Hpre]]]; simpl.
  - exists []. split; reflexivity.
  - destruct (isWhiteSpace c) eqn:Hc.
    + exists (c :: pre). simpl. rewrite Hc, Hpre. split; [congruence | reflexivity].
    + exists []. split; reflexivity.
Qed.

Lemma trimStart_head s c t : trimStart s = c :: t -> isWhiteSpace c = false.
Proof.
  induction s as [|d s IH]; simpl; [discriminate|].
  destruct (isWhiteSpace d) eqn:Hd; [exact IH|].
  intros [= -> _]. exact Hd.
Qed.

Lemma trimStart_keeps c t : isWhiteSpace c = false -> trimStart (c :: t) = c :: t.
Proof. intros H. simpl. rewrite H. reflexivity. Qed.

Lemma trimStart_idem s : trimStart (trimStart s) = trimStart s.
Proof.
  destruct (trimStart s) as [|c t] eqn:E; [reflexivity|].
  apply trimStart_keeps. exact (trimStart_head _ _ _ E).
Qed.

Lemma trimStart_app s c t :
  isWhiteSpace c = false -> trimStart (s ++ c :: t) = trimStart s ++ c :: t.
Proof.
  intros Hc. induction s as [|d s IH]; simpl.
  - rewrite Hc. reflexivity.
  - destruct (isWhiteSpace d); [exact IH | reflexivity].
Qed.

Lemma trimStart_nil s : trimStart s = [] <-> forallb isWhiteSpace s = true.
Proof.
  induction s as [|c s IH]; simpl; [tauto|].
  destruct (isWhiteSpace c); simpl; [exact IH|]. split; discriminate.
Qed.

Lemma forallb_rev (f : code_unit -> bool) s : forallb f (rev s) = forallb f s.
Proof.
  induction s as [|c s IH]; [reflexivity|].
  simpl. rewrite forallb_app, IH. simpl. rewrite andb_true_r. apply andb_comm.
Qed.

Lemma trimEnd_split s :
  exists post, s = trimEnd s ++ post /\ forallb isWhiteSpace post = true.
Proof.
  destruct (trimStart_split (rev s)) as [pre [Hs Hpre]].
  exists (rev pre). split.
  - unfold trimEnd. rewrite <- rev_app_distr, <- Hs, rev_involutive. reflexivity.
  - rewrite forallb_rev. exact Hpre.
Qed.

(** The trimmed text sits in the original between two runs of white
    space. *)
Lemma trim_split s :
  exists pre post,
    s = pre ++ trim s ++ post
    /\ forallb isWhiteSpace pre = true /\ forallb isWhiteSpace post = true.
Proof.
  destruct (trimStart_split s) as [pre [Hs Hpre]].
  destruct (trimEnd_split (trimStart s)) as [post [Ht Hpost]].
  exists pre, post. unfold trim. rewrite <- Ht. auto.
Qed.

(** A text is only white space exactly when its trimmed form is empty. *)
Lemma trim_nil s : trim s = [] <-> forallb isWhiteSpace s = true.
Proof.
  unfold trim, trimEnd. split.
  - intros H. apply (f_equal (@rev code_unit)) in H.
    rewrite rev_involutive in H. simpl in H.
    apply trimStart_nil in H. rewrite forallb_rev in H.
    destruct (trimStart s) as [|c t] eqn:E; [apply trimStart_nil; exact E|].
    apply trimStart_head in E. simpl in H. rewrite E in H. discriminate.
  - intros H. apply trimStart_nil in H. rewrite H. reflexivity.
Qed.

Lemma trimmed_trim s : trimmed s -> trim s = s.
Proof.
  intros [H1 H2]. unfold trim, trimEnd. rewrite H1, H2. apply rev_involutive.
Qed.

Lemma trim_trimmed s : trimmed (trim s).
Proof.
  unfold trimmed, trim, trimEnd. split.
  - destruct (trimStart s) as [|c u] eqn:E; [reflexivity|].
    pose proof (trimStart_head _ _ _ E) as Hc.
    simpl. rewrite trimStart_app by exact Hc.
    rewrite rev_app_distr. simpl. rewrite Hc. reflexivity.
  - rewrite rev_involutive. apply trimStart_idem.
Qed.

Lemma trim_idem s : trim (trim s) = trim s.
Proof. apply trimmed_trim, trim_trimmed. Qed.

Lemma trim_fixed_trimmed s : trim s = s -> trimmed s.
Proof. intros H. rewrite <- H. apply trim_trimmed. Qed.

Lemma startsWith_app p t : startsWith p (p ++ t) = true.
Proof.
  induction p as [|a p IH]; simpl; [reflexivity|].
  rewrite N.eqb_refl. exact IH.
Qed.

Lemma startsWith_spec p s : startsWith p s = true <-> exists t, s = p ++ t.
Proof.
  revert s. induction p as [|a p IH]; intros s; simpl.
  - split; [exists s; reflexivity | reflexivity].
  - destruct s as [|b s]; simpl.
    + split; [discriminate | intros [t [=]]].
    + rewrite andb_true_iff, N.eqb_eq, IH. split.
      * intros [-> [t ->]]. exists t. reflexivity.
      * intros [t [= -> ->]]. split; [reflexivity | exists t; reflexivity].
Qed.

(** [includes] holds exactly of the strings that contain [p]. *)
Lemma includes_spec p s :
  includes p s = true <-> exists pre post, s = pre ++ p ++ post.
Proof.
  induction s as [|b s IH].
  - simpl. rewrite orb_false_r, startsWith_spec. split.
    + intros [t H]. exists [], t. exact H.
    + intros [pre [post H]]. destruct pre; simpl in H.
      * exists post. exact H.
      * discriminate.
  - cbn [includes]. rewrite orb_true_iff, startsWith_spec, IH. split.
    + intros [[t H] | [pre [post H]]].
      * exists [], t. exact H.
      * exists (b :: pre), post. simpl. rewrite H. reflexivity.
    + intros [pre [post H]]. destruct pre as [|a pre]; simpl in H.
      * left. exists post. exact H.
      * right. injection H as _ H. exists pre, post. exact H.
Qed.

Lemma includes_prefix p t : includes p (p ++ t) = true.
Proof. apply includes_spec. exists [], t. reflexivity. Qed.
End Strings.

(** ** Arrays *)

Section Arrays.
Context {A : Type}.
Implicit Types (l : list A) (index : Z).

Lemma filter_from_Forall (P : A -> Prop) (f : A -> nat -> bool) l :
  forall start, Forall P l -> Forall P (filter_from f start l).
Proof.
  induction l as [|x l IH]; intros start H; simpl; [constructor|].
  inversion H as [|? ? Hx Hl]; subst.
  destruct (f x start); [constructor; [exact Hx|] |]; apply IH; exact Hl.
Qed.

(** No position of [l] carries the number [index]: nothing is dropped. *)
Lemma keep_except_outside index l :
  forall start,
    (index < Z.of_nat start \/ Z.of_nat (start + length l) <= index)%Z ->
    filter_from (keep_except index) start l = l.
Proof.
  induction l as [|x l IH]; intros start H; simpl; [reflexivity|].
  unfold keep_except at 1.
  destruct (Z.eqb_spec (Z.of_nat start) index) as [E|_]; simpl in *; [lia|].
  f_equal. apply IH. simpl. lia.
Qed.

(** Position [i] carries the number [index]: it is the one dropped. *)
Lemma keep_except_inside l :
  forall start i,
    (i < length l)%nat ->
    filter_from (keep_except (Z.of_nat (start + i))) start l
    = take i l ++ drop (S i) l.
Proof.
  induction l as [|x l IH]; intros start i Hi; simpl in Hi; [lia|].
  cbn [filter_from]. unfold keep_except at 1.
  destruct i as [|i].
  - replace (start + 0)%nat with start by lia. rewrite Z.eqb_refl. simpl.
    apply keep_except_outside. lia.
  - destruct (Z.eqb_spec (Z.of_nat start) (Z.of_nat (start + S i))) as [E|_]; [lia|].
    simpl. f_equal.
    replace (start + S i)%nat with (S start + i)%nat by lia.
    apply IH. lia.
Qed.
End Arrays.

(** ** The stops list *)

Lemma handleAddStop_blank f :
  forallb isWhiteSpace (newStop f) = true -> handleAddStop f = f.
Proof.
  intros H. apply trim_nil in H. unfold handleAddStop. rewrite H. reflexivity.
Qed.

Lemma handleAddStop_text f :
  forallb isWhiteSpace (newStop f) = false ->
  handleAddStop f = setNewStop [] (setStops (stops f ++ [trim (newStop f)]) f).
Proof.
  intros H. unfold handleAddStop.
  destruct (truthy (trim (newStop f))) eqn:E; [reflexivity|].
  apply truthy_false, trim_nil in E. congruence.
Qed.

Lemma handleRemoveStop_at f (i : nat) :
  (i < length (stops f))%nat ->
  stops (handleRemoveStop (Z.of_nat i) f) = take i (stops f) ++ drop (S i) (stops f).
Proof. intros H. apply (keep_except_inside (stops f) 0 i H). Qed.

Lemma handleRemoveStop_outside f index :
  (index < 0 \/ Z.of_nat (length (stops f)) <= index)%Z ->
  handleRemoveStop index f = f.
Proof.
  intros H. unfold handleRemoveStop.
  rewrite keep_except_outside by (simpl; lia). destruct f; reflexivity.
Qed.

(** C4: a new stop that is only white space changes nothing; any other
    text is appended, trimmed, after the stops already there (so
    ["Lake Tahoe"], and every text without white space at its ends, is
    appended as it is); removing position [i] gives the stops before [i]
    followed by the stops after [i]. *)
Theorem stops_add_and_remove (f : Form) :
  (forallb isWhiteSpace (newStop f) = true -> stops (handleAddStop f) = stops f)
  /\ (forallb isWhiteSpace (newStop f) = false ->
      stops (handleAddStop f) = stops f ++ [trim (newStop f)])
  /\ (newStop f <> [] -> trimmed (newStop f) ->
      stops (handleAddStop f) = stops f ++ [newStop f])
  /\ (newStop f = js "Lake Tahoe" ->
      stops (handleAddStop f) = stops f ++ [js "Lake Tahoe"])
  /\ (forall i : nat, (i < length (stops f))%nat ->
      stops (handleRemoveStop (Z.of_nat i) f)
      = take i (stops f) ++ drop (S i) (stops f)).
Proof.
  split; [|split; [|split; [|split]]].
  - intros H. rewrite handleAddStop_blank by exact H. reflexivity.
  - intros H. rewrite handleAddStop_text by exact H. reflexivity.
  - intros Hne Ht. pose proof (trimmed_trim _ Ht) as E.
    unfold handleAddStop. rewrite E.
    destruct (newStop f); [congruence | reflexivity].
  - intros E. unfold handleAddStop. rewrite E. reflexivity.
  - intros i. apply handleRemoveStop_at.
Qed.

Lemma stops_add_and_remove_witness :
  stops (handleAddStop (setNewStop (js "   ") three_stops))
  = [js "Reno"; js "Reno"; js "Tonopah"]
  /\ stops (handleAddStop three_stops)
     = [js "Reno"; js "Reno"; js "Tonopah"; js "Lake Tahoe"]
  /\ stops (handleRemoveStop 1 three_stops) = [js "Reno"; js "Tonopah"].
Proof.
  split; [|split].
  - apply (proj1 (stops_add_and_remove (setNewStop (js "   ") three_stops))).
    reflexivity.
  - apply (proj1 (proj2 (proj2 (proj2 (stops_add_and_remove three_stops))))).
    reflexivity.
  - apply (proj2 (proj2 (proj2 (proj2 (stops_add_and_remove three_stops)))) 1%nat).
    simpl. lia.
Defined.

(** C9: for every integer index the removal yields a list: an index that
    is negative or not below the length of the list leaves the stops, and
    the whole draft, as they were, and any other index drops that one
    position. *)
Theorem remove_stop_out_of_range (f : Form) (index : Z) :
  ((index < 0 \/ Z.of_nat (length (stops f)) <= index)%Z ->
   stops (handleRemoveStop index f) = stops f /\ handleRemoveStop index f = f)
  /\ ((0 <= index < Z.of_nat (length (stops f)))%Z ->
      stops (handleRemoveStop index f)
      = take (Z.to_nat index) (stops f) ++ drop (S (Z.to_nat index)) (stops f)).
Proof.
  split.
  - intros H. rewrite handleRemoveStop_outside by exact H. split; reflexivity.
  - intros H. rewrite <- (Z2Nat.id index) at 1 by lia.
    apply handleRemoveStop_at. lia.
Qed.

Lemma remove_stop_out_of_range_witness :
  (stops (handleRemoveStop 3 three_stops) = stops three_stops
   /\ handleRemoveStop 3 three_stops = three_stops)
  /\ (stops (handleRemoveStop (-1) three_stops) = stops three_stops
      /\ handleRemoveStop (-1) three_stops = three_stops).
Proof.
  split.
  - apply (proj1 (remove_stop_out_of_range three_stops 3)). right. simpl. lia.
  - apply (proj1 (remove_stop_out_of_range three_stops (-1))). left. lia.
Defined.

(** ** Place suggestions *)

(** C5: the lookup leaves no suggestion for an input that is empty or
    only white space, and for any other input exactly three, each of
    whose descriptions contains the input. *)
Theorem suggestions_for_input (input : jsstring) (f : Form) :
  (forallb isWhiteSpace input = true ->
   suggestions (getPlaceSuggestions input f) = [])
  /\ suggestions (getPlaceSuggestions [] f) = []
  /\ (forallb isWhiteSpace input = false ->
      length (suggestions (getPlaceSuggestions input f)) = 3%nat
      /\ Forall (fun g => includes input (description g) = true)
           (suggestions (getPlaceSuggestions input f))
      /\ map description (suggestions (getPlaceSuggestions input f))
         = [input ++ js ", New York, USA"; input ++ js ", California, USA";
            input ++ js ", Texas, USA"]).
Proof.
  split; [|split].
  - intros H. apply trim_nil in H. unfold getPlaceSuggestions. rewrite H. reflexivity.
  - reflexivity.
  - intros H. unfold getPlaceSuggestions.
    destruct (truthy (trim input)) eqn:E.
    + simpl. split; [reflexivity|]. split; [|reflexivity].
      repeat constructor; apply includes_prefix.
    + apply truthy_false, trim_nil in E. congruence.
Qed.

Lemma suggestions_for_input_witness :
  suggestions (getPlaceSuggestions (js "  ") initialForm) = []
  /\ map description (suggestions (getPlaceSuggestions (js "Austin") initialForm))
     = [js "Austin, New York, USA"; js "Austin, California, USA";
        js "Austin, Texas, USA"]
  /\ Forall (fun g => includes (js "Austin") (description g) = true)
       (suggestions (getPlaceSuggestions (js "Austin") initialForm)).
Proof.
  pose proof (suggestions_for_input (js "  ") initialForm) as [Hblank _].
  pose proof (suggestions_for_input (js "Austin") initialForm) as [_ [_ Htext]].
  split; [apply Hblank; reflexivity|].
  destruct (Htext eq_refl) as [_ [Hin Hmap]].
  split; [exact Hmap | exact Hin].
Defined.

(** ** What the stops list holds *)

Lemma well_formed_stop_ends s :
  well_formed_stop s ->
  (exists c t, s = c :: t /\ isWhiteSpace c = false)
  /\ (exists t c, s = t ++ [c] /\ isWhiteSpace c = false).
Proof.
  intros [Hne Ht]. apply trim_fixed_trimmed in Ht. destruct Ht as [H1 H2]. split.
  - destruct s as [|c t]; [congruence|]. exists c, t. split; [reflexivity|].
    exact (trimStart_head _ _ _ H1).
  - destruct (rev s) as [|c t] eqn:E.
    + apply (f_equal (@rev code_unit)) in E. rewrite rev_involutive in E.
      simpl in E. congruence.
    + exists (rev t), c. split.
      * apply (f_equal (@rev code_unit)) in E. rewrite rev_involutive in E. exact E.
      * exact (trimStart_head _ _ _ H2).
Qed.

Lemma handleAddStop_well_formed f :
  Forall well_formed_stop (stops f) -> Forall well_formed_stop (stops (handleAddStop f)).
Proof.
  intros H. unfold handleAddStop.
  destruct (truthy (trim (newStop f))) eqn:E; [|exact H].
  simpl. apply Forall_app. split; [exact H|].
  constructor; [|constructor].
  split; [apply truthy_true; exact E | apply trim_idem].
Qed.

Lemma handleRemoveStop_well_formed index f :
  Forall well_formed_stop (stops f) ->
  Forall well_formed_stop (stops (handleRemoveStop index f)).
Proof. intros H. simpl. apply filter_from_Forall. exact H. Qed.

Lemma apply_edit_well_formed e f :
  Forall well_formed_stop (stops f) -> Forall well_formed_stop (stops (apply_edit e f)).
Proof.
  intros H. destruct e; simpl; try exact H.
  - unfold handleDestinationChange, getPlaceSuggestions.
    destruct (negb _); exact H.
  - apply handleAddStop_well_formed. exact H.
  - apply filter_from_Forall. exact H.
Qed.

(** ** The guard of [handleSubmit] *)

Lemma incomplete_true f :
  incomplete f = true
  <-> tripName f = [] \/ destination f = [] \/ currentLocation f = None.
Proof.
  unfold incomplete. rewrite !orb_true_iff, !negb_true_iff, !truthy_false.
  rewrite bool_decide_eq_false, <- eq_None_not_Some. tauto.
Qed.

Lemma incomplete_false f : incomplete f = false <-> complete f.
Proof.
  unfold incomplete, complete.
  rewrite !orb_false_iff, !negb_false_iff, !truthy_true, bool_decide_eq_true. tauto.
Qed.

Lemma failure_message_nonempty : failure_message <> [].
Proof. discriminate. Qed.

Lemma validation_message_nonempty : validation_message <> [].
Proof. discriminate. Qed.

(** ** Submitting through [createTrip] *)

Section DelegatedSubmit.
Import Delegated.
Variables (currentUser : option Auth.User) (random : nat -> number).
Variable env : forall c, settled (reply c).
Implicit Types (f : Form) (here : LatLng).

Lemma delegated_blocked f :
  incomplete f = true ->
  run env (handleSubmit currentUser random f)
  = {| trace := [Effect preventDefault];
       final := setError validation_message f;
       result := Fulfilled tt |}.
Proof. intros H. unfold handleSubmit. rewrite H. reflexivity. Qed.

Lemma delegated_created f here tripId :
  incomplete f = false -> currentLocation f = Some here ->
  env (createTrip (tripData currentUser random here f)) = Fulfilled tripId ->
  run env (handleSubmit currentUser random f)
  = {| trace :=
         [Effect preventDefault;
          Called (setError [] (setIsLoading true f))
            (createTrip (tripData currentUser random here f));
          Effect onClose;
          Effect (navigate (js "/trip/" ++ tripId))];
       final := setIsLoading false (setError [] (setIsLoading true f));
       result := Fulfilled tt |}.
Proof.
  intros H Hloc Henv. unfold handleSubmit. rewrite H, Hloc.
  cbn [run]. rewrite Henv. reflexivity.
Qed.

Lemma delegated_rejected f here err :
  incomplete f = false -> currentLocation f = Some here ->
  env (createTrip (tripData currentUser random here f)) = Rejected err ->
  run env (handleSubmit currentUser random f)
  = {| trace :=
         [Effect preventDefault;
          Called (setError [] (setIsLoading true f))
            (createTrip (tripData currentUser random here f));
          Effect (console_error err)];
       final :=
         setIsLoading false
           (setError failure_message (setError [] (setIsLoading true f)));
       result := Fulfilled tt |}.
Proof.
  intros H Hloc Henv. unfold handleSubmit. rewrite H, Hloc.
  cbn [run]. rewrite Henv. reflexivity.
Qed.

Lemma delegated_calls f :
  calls (trace (run env (handleSubmit currentUser random f)))
  = if incomplete f then []
    else match currentLocation f with
         | Some here => [createTrip (tripData currentUser random here f)]
         | None => []
         end.
Proof.
  destruct (incomplete f) eqn:H.
  - rewrite delegated_blocked by exact H. reflexivity.
  - destruct (currentLocation f) as [here|] eqn:Hloc.
    + destruct (env (createTrip (tripData currentUser random here f))) as [id|err] eqn:E.
      * rewrite (delegated_created f here id) by assumption. reflexivity.
      * rewrite (delegated_rejected f here err) by assumption. reflexivity.
    + unfold handleSubmit. rewrite H, Hloc. reflexivity.
Qed.

Lemma delegated_stops f :
  stops (final (run env (handleSubmit currentUser random f))) = stops f.
Proof.
  destruct (incomplete f) eqn:H.
  - rewrite delegated_blocked by exact H. reflexivity.
  - destruct (currentLocation f) as [here|] eqn:Hloc.
    + destruct (env (createTrip (tripData currentUser random here f))) as [id|err] eqn:E.
      * rewrite (delegated_created f here id) by assumption. reflexivity.
      * rewrite (delegated_rejected f here err) by assumption. reflexivity.
    + unfold handleSubmit. rewrite H, Hloc. reflexivity.
Qed.
End DelegatedSubmit.

(** ** Submitting straight to the backend *)

Section DirectSubmit.
Import DirectHttp.
Variable currentUser : option Auth.User.
Variable env : forall c, settled (reply c).
Implicit Types (s : State) (here : LatLng).

Lemma direct_blocked s :
  incomplete (form s) = true ->
  run env (handleSubmit currentUser s)
  = {| trace := [Effect preventDefault];
       final := onForm (setError validation_message) s;
       result := Fulfilled tt |}.
Proof. intros H. unfold handleSubmit. rewrite H. reflexivity. Qed.

Lemma direct_unreachable s here err :
  incomplete (form s) = false -> currentLocation (form s) = Some here ->
  env (request (tripData currentUser here (form s))) = Rejected err ->
  run env (handleSubmit currentUser s)
  = {| trace :=
         [Effect preventDefault;
          Called (submitting s) (request (tripData currentUser here (form s)));
          Effect (console_error err)];
       final := given_up s;
       result := Fulfilled tt |}.
Proof.
  intros H Hloc Henv. unfold handleSubmit. rewrite H, Hloc.
  cbn [run]. rewrite Henv. reflexivity.
Qed.

Lemma direct_refused s here response :
  incomplete (form s) = false -> currentLocation (form s) = Some here ->
  env (request (tripData currentUser here (form s))) = Fulfilled response ->
  ok response = false ->
  run env (handleSubmit currentUser s)
  = {| trace :=
         [Effect preventDefault;
          Called (submitting s) (request (tripData currentUser here (form s)));
          Effect (console_error (Error (js "Failed to create trip")))];
       final := given_up s;
       result := Fulfilled tt |}.
Proof.
  intros H Hloc Henv Hok. unfold handleSubmit. rewrite H, Hloc.
  cbn [run]. rewrite Henv, Hok. reflexivity.
Qed.

Lemma direct_unreadable s here response err :
  incomplete (form s) = false -> currentLocation (form s) = Some here ->
  env (request (tripData currentUser here (form s))) = Fulfilled response ->
  ok response = true ->
  env (response_json response) = Rejected err
  \/ (env (response_json response) = Fulfilled JNull /\ err = TypeError) ->
  run env (handleSubmit currentUser s)
  = {| trace :=
         [Effect preventDefault;
          Called (submitting s) (request (tripData currentUser here (form s)));
          Called (submitting s) (response_json response);
          Effect (console_error err)];
       final := given_up s;
       result := Fulfilled tt |}.
Proof.
  intros H Hloc Henv Hok Hbody. unfold handleSubmit. rewrite H, Hloc.
  cbn [run]. rewrite Henv, Hok. cbn [negb run].
  destruct Hbody as [-> | [-> ->]]; reflexivity.
Qed.

Lemma direct_shared s here response data shareLink :
  incomplete (form s) = false -> currentLocation (form s) = Some here ->
  env (request (tripData currentUser here (form s))) = Fulfilled response ->
  ok response = true ->
  env (response_json response) = Fulfilled data ->
  destructure (js "shareLink") data = Fulfilled shareLink ->
  run env (handleSubmit currentUser s)
  = {| trace :=
         [Effect preventDefault;
          Called (submitting s) (request (tripData currentUser here (form s)));
          Called (submitting s) (response_json response)];
       final :=
         onForm (setIsLoading false)
           (setShowShareView true (setShareableLink shareLink (submitting s)));
       result := Fulfilled tt |}.
Proof.
  intros H Hloc Henv Hok Hbody Hlink. unfold handleSubmit. rewrite H, Hloc.
  cbn [run]. rewrite Henv, Hok. cbn [negb run]. rewrite Hbody, Hlink. reflexivity.
Qed.

Lemma destructure_not_null key data :
  data <> JNull -> exists v, destructure key data = Fulfilled v.
Proof.
  destruct data; simpl; try (eexists; reflexivity); [congruence|].
  intros _. destruct (fields !! key); eexists; reflexivity.
Qed.

(** Every run of a complete draft ends in one of two ways. *)
Lemma direct_cases s here :
  incomplete (form s) = false -> currentLocation (form s) = Some here ->
  let t := tripData currentUser here (form s) in
  let o := run env (handleSubmit currentUser s) in
  result o = Fulfilled tt
  /\ List.filter is_fetch (calls (trace o)) = [request t]
  /\ hd_error (calls (trace o)) = Some (request t)
  /\ hd_error (pending (trace o)) = Some (submitting s)
  /\ if created env t
     then exists shareLink,
         final o = onForm (setIsLoading false)
                     (setShowShareView true (setShareableLink shareLink (submitting s)))
     else final o = given_up s.
Proof.
  intros H Hloc t o. subst o. unfold created. fold t.
  destruct (env (request t)) as [response|err] eqn:Henv.
  - destruct (ok response) eqn:Hok.
    + destruct (env (response_json response)) as [data|err] eqn:Hbody.
      * destruct (destructure (js "shareLink") data) as [v|e] eqn:Hv.
        -- rewrite (direct_shared s here response data v) by assumption.
           simpl. destruct data; try discriminate; repeat split; eauto.
        -- destruct data; try discriminate.
           ++ rewrite (direct_unreadable s here response TypeError) by auto.
              simpl. repeat split.
           ++ simpl in Hv. destruct (fields !! js "shareLink"); discriminate.
      * rewrite (direct_unreadable s here response err) by auto.
        simpl. repeat split.
    + rewrite (direct_refused s here response) by assumption. simpl. repeat split.
  - rewrite (direct_unreachable s here err) by assumption. simpl. repeat split.
Qed.

Lemma direct_stops s :
  stops (form (final (run env (handleSubmit currentUser s)))) = stops (form s).
Proof.
  destruct (incomplete (form s)) eqn:H.
  - rewrite direct_blocked by exact H. reflexivity.
  - destruct (currentLocation (form s)) as [here|] eqn:Hloc.
    + destruct (direct_cases s here H Hloc) as (_ & _ & _ & _ & Hfinal).
      destruct (created env _); [destruct Hfinal as [v ->] | rewrite Hfinal];
        reflexivity.
    + unfold handleSubmit. rewrite H, Hloc. reflexivity.
Qed.
End DirectSubmit.

(** ** Validation *)

(** C1: when the trip name is empty, the destination is empty or the
    origin is unresolved, submit calls no collaborator, never shows the
    form as submitting, and leaves the draft as it was except for the
    validation message; conversely a creation call is issued only for a
    draft that has all three.  Both revisions. *)
Theorem submit_needs_all_fields
    (currentUser : option Auth.User) (random : nat -> number)
    (s : DirectHttp.State)
    (envB : forall c, settled (Delegated.reply c))
    (envA : forall c, settled (DirectHttp.reply c)) :
  let f := DirectHttp.form s in
  let ob := run envB (Delegated.handleSubmit currentUser random f) in
  let oa := run envA (DirectHttp.handleSubmit currentUser s) in
  (tripName f = [] \/ destination f = [] \/ currentLocation f = None ->
   (calls (trace ob) = [] /\ pending (trace ob) = []
    /\ final ob = setError validation_message f
    /\ isLoading (final ob) = isLoading f
    /\ error (final ob) = validation_message)
   /\ (calls (trace oa) = [] /\ pending (trace oa) = []
       /\ final oa = DirectHttp.onForm (setError validation_message) s
       /\ isLoading (DirectHttp.form (final oa)) = isLoading f
       /\ error (DirectHttp.form (final oa)) = validation_message)
   /\ validation_message <> [])
  /\ (calls (trace ob) <> [] -> complete f)
  /\ (calls (trace oa) <> [] -> complete f).
Proof.
  intros f ob oa. subst ob oa. split; [|split].
  - intros H. apply incomplete_true in H.
    rewrite delegated_blocked, direct_blocked by exact H.
    simpl. repeat split; discriminate.
  - intros H. apply incomplete_false.
    destruct (incomplete f) eqn:E; [|reflexivity].
    rewrite delegated_blocked in H by exact E. simpl in H. congruence.
  - intros H. apply incomplete_false.
    destruct (incomplete f) eqn:E; [|reflexivity].
    rewrite direct_blocked in H by exact E. simpl in H. congruence.
Qed.

Lemma submit_needs_all_fields_witness :
  calls (trace (run creates
    (Delegated.handleSubmit (Some alice) half (DirectHttp.form nameless)))) = []
  /\ error (final (run creates
    (Delegated.handleSubmit (Some alice) half (DirectHttp.form nameless))))
     = validation_message
  /\ calls (trace (run (answers 200 link_body)
    (DirectHttp.handleSubmit (Some alice) nameless))) = []
  /\ complete weekend.
Proof.
  pose proof (submit_needs_all_fields (Some alice) half nameless creates
                (answers 200 link_body)) as [Hblocked _].
  pose proof (submit_needs_all_fields (Some alice) half weekend_shared creates
                (answers 200 link_body)) as [_ [Hsent _]].
  destruct (Hblocked (or_introl eq_refl)) as [(Hb1 & _ & _ & _ & Hb2) [(Ha1 & _) _]].
  split; [exact Hb1|]. split; [exact Hb2|]. split; [exact Ha1|].
  apply Hsent. discriminate.
Defined.

(** ** How a valid submission ends *)

(** C2: a submission of a complete draft runs to its end with the
    in-flight flag reset, so the submit control is enabled again; the
    error message is empty when the trip was created and the fixed,
    non-empty failure text when the creation call rejected, the status
    was not a success, or reading the answer threw.  Both revisions. *)
Theorem submit_settles
    (currentUser : option Auth.User) (random : nat -> number)
    (s : DirectHttp.State) (here : LatLng)
    (envB : forall c, settled (Delegated.reply c))
    (envA : forall c, settled (DirectHttp.reply c)) :
  let f := DirectHttp.form s in
  let ob := run envB (Delegated.handleSubmit currentUser random f) in
  let oa := run envA (DirectHttp.handleSubmit currentUser s) in
  tripName f <> [] -> destination f <> [] -> currentLocation f = Some here ->
  (result ob = Fulfilled tt
   /\ isLoading (final ob) = false
   /\ error (final ob)
      = if Delegated.created envB (Delegated.tripData currentUser random here f)
        then [] else failure_message)
  /\ (result oa = Fulfilled tt
      /\ isLoading (DirectHttp.form (final oa)) = false
      /\ error (DirectHttp.form (final oa))
         = if DirectHttp.created envA (DirectHttp.tripData currentUser here f)
           then [] else failure_message)
  /\ failure_message <> [].
Proof.
  intros f ob oa Hname Hdest Hloc. subst ob oa.
  assert (incomplete f = false) as H.
  { apply incomplete_false. unfold complete. rewrite Hloc. eauto. }
  split; [|split; [|discriminate]].
  - unfold Delegated.created.
    destruct (envB _) as [id|err] eqn:E.
    + rewrite (delegated_created _ _ _ f here id) by assumption. auto.
    + rewrite (delegated_rejected _ _ _ f here err) by assumption. auto.
  - destruct (direct_cases currentUser envA s here H Hloc) as (Hres & _ & _ & _ & Hfinal).
    split; [exact Hres|].
    destruct (DirectHttp.created envA _).
    + destruct Hfinal as [v ->]. auto.
    + rewrite Hfinal. auto.
Qed.

Lemma submit_settles_witness :
  (isLoading (final (run declines
     (Delegated.handleSubmit (Some alice) half weekend))) = false
   /\ error (final (run declines
     (Delegated.handleSubmit (Some alice) half weekend))) = failure_message)
  /\ (isLoading (DirectHttp.form (final (run (answers 200 link_body)
        (DirectHttp.handleSubmit (Some alice) weekend_shared)))) = false
      /\ error (DirectHttp.form (final (run (answers 200 link_body)
        (DirectHttp.handleSubmit (Some alice) weekend_shared)))) = []).
Proof.
  pose proof (submit_settles (Some alice) half weekend_shared
                {| lat := 40.7; lng := -74.0 |} declines (answers 200 link_body)) as H.
  destruct H as [(_ & Hb1 & Hb2) [(_ & Ha1 & Ha2) _]];
    [discriminate | discriminate | reflexivity |].
  split; split; assumption.
Defined.

(** ** The request of a draft without stops *)

Lemma uid_or_signed_in u fallback :
  Auth.uid u <> [] -> uid_or (Some u) fallback = Auth.uid u.
Proof. intros H. simpl. apply truthy_true in H. rewrite H. reflexivity. Qed.

Lemma uid_or_blank u fallback :
  Auth.uid u = [] -> uid_or (Some u) fallback = fallback.
Proof. intros H. simpl. rewrite H. reflexivity. Qed.

Lemma uid_or_empty_fallback currentUser :
  uid_or currentUser []
  = match currentUser with Some u => Auth.uid u | None => [] end.
Proof.
  destruct currentUser as [u|]; [|reflexivity].
  simpl. destruct (Auth.uid u); reflexivity.
Qed.

Lemma session_uid_given storage actions :
  Forall provider_uid_given actions ->
  forall u, Auth.currentUser (Session.after storage actions) = Some u ->
            Auth.uid u <> [].
Proof.
  unfold Session.after.
  assert (forall u, Auth.currentUser (Auth.initial storage) = Some u -> Auth.uid u <> [])
    as H0 by discriminate.
  revert H0. generalize (Auth.initial storage).
  induction actions as [|a actions IH]; intros s0 H0 Hall; [exact H0|].
  inversion Hall as [|? ? Ha Hrest]; subst. cbn [fold_left].
  apply IH; [|exact Hrest].
  destruct a as [env|env|[u'|]]; cbn [Session.step provider_uid_given] in *.
  - unfold Auth.login. cbn [run].
    destruct (env Auth.signInWithPopup) as [credential|err]; cbn.
    + intros u [= <-]. exact Ha.
    + exact H0.
  - unfold Auth.logout. cbn [run].
    destruct (env Auth.signOut); cbn; [discriminate | exact H0].
  - cbn. intros u [= <-]. exact Ha.
  - cbn. discriminate.
Qed.

(** C3: for a session as the identity provider issues it (its uid is
    not the empty string) or for no session at all, a complete draft
    without stops issues exactly one creation request, whose [stops] is
    the empty list and whose [createdBy] is the uid of the session, or
    the fallback when nobody is signed in: ["user123"] in the call of
    [createTrip], the empty string in the body posted to the backend. *)
Theorem one_request_without_stops
    (currentUser : option Auth.User) (random : nat -> number)
    (s : DirectHttp.State) (here : LatLng)
    (envB : forall c, settled (Delegated.reply c))
    (envA : forall c, settled (DirectHttp.reply c)) :
  let f := DirectHttp.form s in
  let ob := run envB (Delegated.handleSubmit currentUser random f) in
  let oa := run envA (DirectHttp.handleSubmit currentUser s) in
  (forall u, currentUser = Some u -> Auth.uid u <> []) ->
  tripName f <> [] -> destination f <> [] -> currentLocation f = Some here ->
  stops f = [] ->
  (exists t,
      calls (trace ob) = [Delegated.createTrip t]
      /\ Delegated.TripData.stops t = []
      /\ Delegated.TripData.createdBy t
         = match currentUser with
           | Some u => Auth.uid u
           | None => js "user123"
           end)
  /\ (exists t,
      List.filter DirectHttp.is_fetch (calls (trace oa))
      = [DirectHttp.fetch (js "https://mapsync.onrender.com/newtrip")
           {| DirectHttp.method := js "POST";
              DirectHttp.headers := {[ js "Content-Type" := js "application/json" ]};
              DirectHttp.body := t |}]
      /\ DirectHttp.TripData.stops t = []
      /\ DirectHttp.TripData.createdBy t
         = match currentUser with
           | Some u => Auth.uid u
           | None => []
           end).
Proof.
  intros f ob oa Huid Hname Hdest Hloc Hstops. subst ob oa.
  assert (incomplete f = false) as H.
  { apply incomplete_false. unfold complete. rewrite Hloc. eauto. }
  split.
  - exists (Delegated.tripData currentUser random here f).
    rewrite delegated_calls, H, Hloc. split; [reflexivity|].
    unfold Delegated.tripData. cbn [Delegated.TripData.stops Delegated.TripData.createdBy].
    rewrite Hstops. split; [reflexivity|].
    destruct currentUser as [u|]; [|reflexivity].
    apply uid_or_signed_in. apply Huid. reflexivity.
  - exists (DirectHttp.tripData currentUser here f).
    destruct (direct_cases currentUser envA s here H Hloc) as (_ & Hcalls & _).
    split; [exact Hcalls|].
    unfold DirectHttp.tripData.
    cbn [DirectHttp.TripData.stops DirectHttp.TripData.createdBy].
    fold f. rewrite Hstops, uid_or_empty_fallback. split; reflexivity.
Qed.

Lemma one_request_without_stops_witness :
  (exists t,
      calls (trace (run creates (Delegated.handleSubmit (Some alice) half weekend)))
      = [Delegated.createTrip t]
      /\ Delegated.TripData.stops t = []
      /\ Delegated.TripData.createdBy t = js "u-42")
  /\ (exists t,
      calls (trace (run creates (Delegated.handleSubmit None half weekend)))
      = [Delegated.createTrip t]
      /\ Delegated.TripData.stops t = []
      /\ Delegated.TripData.createdBy t = js "user123").
Proof.
  split.
  - pose proof (one_request_without_stops (Some alice) half weekend_shared
                  {| lat := 40.7; lng := -74.0 |} creates (answers 200 link_body)) as H.
    destruct H as [[t (Hcalls & Hstops & Hby)] _];
      [intros u [= <-]; discriminate
      | discriminate | discriminate | reflexivity | reflexivity |].
    exists t. split; [exact Hcalls|]. split; [exact Hstops | exact Hby].
  - pose proof (one_request_without_stops None half weekend_shared
                  {| lat := 40.7; lng := -74.0 |} creates (answers 200 link_body)) as H.
    destruct H as [[t (Hcalls & Hstops & Hby)] _];
      [discriminate | discriminate | discriminate | reflexivity | reflexivity |].
    exists t. split; [exact Hcalls|]. split; [exact Hstops | exact Hby].
Defined.

(** Why the uid must not be empty: [currentUser?.uid || 'user123']
    takes the fallback for an empty uid as it does for no user. *)
Lemma blank_uid_falls_back :
  uid_or (Some blank_uid) (js "user123") = js "user123"
  /\ uid_or (Some alice) (js "user123") = js "u-42"
  /\ uid_or None (js "user123") = js "user123".
Proof. repeat split. Qed.

(** ** Posting the draft *)

Lemma ok_status response :
  DirectHttp.ok response = true <-> (200 <= DirectHttp.status response <= 299)%N.
Proof.
  unfold DirectHttp.ok. rewrite andb_true_iff, !N.leb_le. tauto.
Qed.

Lemma share_view_unbound s :
  DirectHttp.showShareView s = true -> Render.render s = Render.ReferenceError "Share2".
Proof. intros H. unfold Render.render, Render.components. rewrite H. reflexivity. Qed.

(** C7: in the revision that posts the draft, a complete draft is sent
    by one [fetch], a POST of JSON to the [newtrip] address, whose body
    carries the coordinate (0, 0) for the destination and for every
    stop; an answer whose status is not a success takes the failure path
    (the generic message, nothing shared); an answer with a success
    status whose body has a [shareLink] makes that the shareable link and
    sets the share-view flag.  The share view itself is then never
    drawn: rendering it evaluates [Share2], which the module does not
    import, and throws. *)
Theorem posted_draft
    (currentUser : option Auth.User) (s : DirectHttp.State) (here : LatLng)
    (env : forall c, settled (DirectHttp.reply c)) :
  let f := DirectHttp.form s in
  let o := run env (DirectHttp.handleSubmit currentUser s) in
  tripName f <> [] -> destination f <> [] -> currentLocation f = Some here ->
  (exists t,
      List.filter DirectHttp.is_fetch (calls (trace o))
      = [DirectHttp.fetch (js "https://mapsync.onrender.com/newtrip")
           {| DirectHttp.method := js "POST";
              DirectHttp.headers := {[ js "Content-Type" := js "application/json" ]};
              DirectHttp.body := t |}]
      /\ hd_error (calls (trace o))
         = Some (DirectHttp.fetch (js "https://mapsync.onrender.com/newtrip")
                   {| DirectHttp.method := js "POST";
                      DirectHttp.headers :=
                        {[ js "Content-Type" := js "application/json" ]};
                      DirectHttp.body := t |})
      /\ DirectHttp.Place.location (DirectHttp.TripData.destination t)
         = {| lat := 0; lng := 0 |}
      /\ Forall (fun p => DirectHttp.Place.location p = {| lat := 0; lng := 0 |})
           (DirectHttp.TripData.stops t)
      /\ map DirectHttp.Place.name (DirectHttp.TripData.stops t) = stops f
      /\ DirectHttp.Place.name (DirectHttp.TripData.destination t) = destination f
      /\ DirectHttp.Place.location (DirectHttp.TripData.origin t) = here
      /\ (forall response,
            env (DirectHttp.fetch (js "https://mapsync.onrender.com/newtrip")
                   {| DirectHttp.method := js "POST";
                      DirectHttp.headers :=
                        {[ js "Content-Type" := js "application/json" ]};
                      DirectHttp.body := t |}) = Fulfilled response ->
            (DirectHttp.status response < 200 \/ 299 < DirectHttp.status response)%N ->
            final o = DirectHttp.given_up s
            /\ error (DirectHttp.form (final o)) = failure_message
            /\ isLoading (DirectHttp.form (final o)) = false
            /\ DirectHttp.shareableLink (final o) = DirectHttp.shareableLink s
            /\ DirectHttp.showShareView (final o) = DirectHttp.showShareView s
            /\ calls (trace o)
               = [DirectHttp.fetch (js "https://mapsync.onrender.com/newtrip")
                    {| DirectHttp.method := js "POST";
                       DirectHttp.headers :=
                         {[ js "Content-Type" := js "application/json" ]};
                       DirectHttp.body := t |}])
      /\ (forall response fields link,
            env (DirectHttp.fetch (js "https://mapsync.onrender.com/newtrip")
                   {| DirectHttp.method := js "POST";
                      DirectHttp.headers :=
                        {[ js "Content-Type" := js "application/json" ]};
                      DirectHttp.body := t |}) = Fulfilled response ->
            (200 <= DirectHttp.status response <= 299)%N ->
            env (DirectHttp.response_json response) = Fulfilled (JObject fields) ->
            fields !! js "shareLink" = Some link ->
            DirectHttp.shareableLink (final o) = Value link
            /\ DirectHttp.showShareView (final o) = true
            /\ isLoading (DirectHttp.form (final o)) = false
            /\ error (DirectHttp.form (final o)) = []
            /\ Render.render (final o) = Render.ReferenceError "Share2")).
Proof.
  intros f o Hname Hdest Hloc. subst o.
  assert (incomplete f = false) as H.
  { apply incomplete_false. unfold complete. rewrite Hloc. eauto. }
  exists (DirectHttp.tripData currentUser here f).
  destruct (direct_cases currentUser env s here H Hloc) as (_ & Hcalls & Hfirst & _).
  split; [exact Hcalls|]. split; [exact Hfirst|].
  split; [reflexivity|]. split; [|split; [|split; [reflexivity|split; [reflexivity|split]]]].
  - simpl. apply Forall_map. apply Forall_forall. reflexivity.
  - simpl. rewrite map_map. simpl. apply map_id.
  - intros response Henv Hstatus.
    assert (DirectHttp.ok response = false) as Hok.
    { destruct (DirectHttp.ok response) eqn:E; [|reflexivity].
      apply ok_status in E. lia. }
    rewrite (direct_refused currentUser env s here response) by assumption.
    simpl. repeat split.
  - intros response fields link Henv Hstatus Hbody Hlink.
    apply ok_status in Hstatus.
    rewrite (direct_shared currentUser env s here response (JObject fields) (Value link))
      by (try assumption; simpl; rewrite Hlink; reflexivity).
    simpl. repeat split.
Qed.

Lemma posted_draft_witness :
  DirectHttp.shareableLink (final (run (answers 200 link_body)
    (DirectHttp.handleSubmit (Some alice) weekend_shared)))
  = Value (JString (js "https://mapsync.example/t/1"))
  /\ DirectHttp.showShareView (final (run (answers 200 link_body)
    (DirectHttp.handleSubmit (Some alice) weekend_shared))) = true
  /\ Render.render (final (run (answers 200 link_body)
    (DirectHttp.handleSubmit (Some alice) weekend_shared)))
     = Render.ReferenceError "Share2"
  /\ error (DirectHttp.form (final (run (answers 503 link_body)
    (DirectHttp.handleSubmit (Some alice) weekend_shared)))) = failure_message
  /\ DirectHttp.showShareView (final (run (answers 503 link_body)
    (DirectHttp.handleSubmit (Some alice) weekend_shared))) = false.
Proof.
  pose proof (posted_draft (Some alice) weekend_shared
                {| lat := 40.7; lng := -74.0 |} (answers 200 link_body)) as Hgood.
  pose proof (posted_draft (Some alice) weekend_shared
                {| lat := 40.7; lng := -74.0 |} (answers 503 link_body)) as Hbad.
  destruct Hgood as (t & _ & _ & _ & _ & _ & _ & _ & _ & Hgood);
    [discriminate | discriminate | reflexivity |].
  destruct Hbad as (t' & _ & _ & _ & _ & _ & _ & _ & Hbad & _);
    [discriminate | discriminate | reflexivity |].
  destruct (Hgood {| DirectHttp.status := 200 |}
              {[ js "shareLink" := JString (js "https://mapsync.example/t/1") ]}
              (JString (js "https://mapsync.example/t/1")))
    as (Hlink & Hview & _ & _ & Hrender);
    [reflexivity | simpl; lia | reflexivity | reflexivity |].
  destruct (Hbad {| DirectHttp.status := 503 |}) as (_ & Herr & _ & _ & Hview' & _);
    [reflexivity | right; simpl; lia |].
  split; [exact Hlink|]. split; [exact Hview|]. split; [exact Hrender|].
  split; [exact Herr | exact Hview'].
Defined.

(** ** The invariant of the stops list *)

Lemma well_formed_stop_bare s :
  well_formed_stop s ->
  (forall c t, s = c :: t -> isWhiteSpace c = false)
  /\ (forall t c, s = t ++ [c] -> isWhiteSpace c = false).
Proof.
  intros H. destruct (well_formed_stop_ends s H) as [[c [t [E Hc]]] [t' [c' [E' Hc']]]].
  split.
  - intros d u Hs. rewrite Hs in E. injection E as -> _. exact Hc.
  - intros u d Hs. rewrite Hs in E'. apply app_inj_tail in E' as [_ ->]. exact Hc'.
Qed.

Lemma delegated_step_well_formed f a :
  Forall well_formed_stop (stops f) ->
  Forall well_formed_stop (stops (Delegated.step f a)).
Proof.
  intros H. destruct a as [e|currentUser random env]; cbn [Delegated.step].
  - apply apply_edit_well_formed. exact H.
  - rewrite delegated_stops. exact H.
Qed.

Lemma direct_step_well_formed s a :
  Forall well_formed_stop (stops (DirectHttp.form s)) ->
  Forall well_formed_stop (stops (DirectHttp.form (DirectHttp.step s a))).
Proof.
  intros H. destruct a as [e|currentUser env]; cbn [DirectHttp.step DirectHttp.onForm DirectHttp.form].
  - apply apply_edit_well_formed. exact H.
  - rewrite direct_stops. exact H.
Qed.

Lemma delegated_run_well_formed actions :
  forall f,
    Forall well_formed_stop (stops f) ->
    Forall well_formed_stop (stops (fold_left Delegated.step actions f)).
Proof.
  induction actions as [|a actions IH]; intros f H; simpl; [exact H|].
  apply IH, delegated_step_well_formed, H.
Qed.

Lemma direct_run_well_formed actions :
  forall s,
    Forall well_formed_stop (stops (DirectHttp.form s)) ->
    Forall well_formed_stop
      (stops (DirectHttp.form (fold_left DirectHttp.step actions s))).
Proof.
  induction actions as [|a actions IH]; intros s H; simpl; [exact H|].
  apply IH, direct_step_well_formed, H.
Qed.

(** C8: whatever sequence of edits and submissions the form has gone
    through since it was opened, every stop it holds is a non-empty text
    equal to its own trimmed form, with no white space at its first or
    last position; adding a stop stores the trimmed text, and adding and
    removing both keep the property.  Both revisions. *)
Theorem stops_are_trimmed :
  (forall actions s,
      In s (stops (Delegated.after actions)) ->
      s <> [] /\ trim s = s
      /\ (forall c t, s = c :: t -> isWhiteSpace c = false)
      /\ (forall t c, s = t ++ [c] -> isWhiteSpace c = false))
  /\ (forall actions s,
      In s (stops (DirectHttp.form (DirectHttp.after actions))) ->
      s <> [] /\ trim s = s
      /\ (forall c t, s = c :: t -> isWhiteSpace c = false)
      /\ (forall t c, s = t ++ [c] -> isWhiteSpace c = false))
  /\ (forall f,
      stops (handleAddStop f) = stops f
      \/ stops (handleAddStop f) = stops f ++ [trim (newStop f)])
  /\ (forall f index,
      Forall well_formed_stop (stops f) ->
      Forall well_formed_stop (stops (handleAddStop f))
      /\ Forall well_formed_stop (stops (handleRemoveStop index f))).
Proof.
  split; [|split; [|split]].
  - intros actions s Hin.
    pose proof (delegated_run_well_formed actions initialForm (List.Forall_nil _)) as H.
    rewrite List.Forall_forall in H. specialize (H s Hin).
    destruct (well_formed_stop_bare s H) as [Hl Hr]. destruct H. auto.
  - intros actions s Hin.
    pose proof (direct_run_well_formed actions DirectHttp.initial (List.Forall_nil _)) as H.
    rewrite List.Forall_forall in H. specialize (H s Hin).
    destruct (well_formed_stop_bare s H) as [Hl Hr]. destruct H. auto.
  - intros f. unfold handleAddStop. destruct (truthy _); [right | left]; reflexivity.
  - intros f index H. split.
    + apply handleAddStop_well_formed, H.
    + apply handleRemoveStop_well_formed, H.
Qed.

Lemma stops_are_trimmed_witness :
  let actions :=
    [Delegated.Edit (TypeNewStop (js "  Lake Tahoe ")); Delegated.Edit AddStop;
     Delegated.Edit (TypeNewStop (js "   ")); Delegated.Edit AddStop;
     Delegated.Edit (TypeNewStop (js "Reno")); Delegated.Edit AddStop;
     Delegated.Submit None half creates;
     Delegated.Edit (RemoveStop 7)] in
  stops (Delegated.after actions) = [js "Lake Tahoe"; js "Reno"]
  /\ trim (js "Lake Tahoe") = js "Lake Tahoe".
Proof.
  intros actions. split; [reflexivity|].
  apply (proj1 stops_are_trimmed actions (js "Lake Tahoe")).
  left. reflexivity.
Defined.

(** ** Signing in and out *)

(** C6: whatever the session was, a logout whose provider call succeeds
    ends with no current user and with the ["user"] entry gone from
    local storage, every other entry being kept. *)
Theorem logout_clears_session
    (s : Auth.State) (env : forall c, settled (Auth.reply c)) :
  env Auth.signOut = Fulfilled tt ->
  let o := run env (Auth.logout s) in
  result o = Fulfilled tt
  /\ Auth.currentUser (final o) = None
  /\ Auth.localStorage (final o) !! js "user" = None
  /\ Auth.localStorage (final o) = delete (js "user") (Auth.localStorage s)
  /\ (forall key, key <> js "user" ->
      Auth.localStorage (final o) !! key = Auth.localStorage s !! key).
Proof.
  intros Henv o. subst o. unfold Auth.logout. cbn [run]. rewrite Henv. simpl.
  split; [reflexivity|]. split; [reflexivity|].
  split; [apply lookup_delete_eq|]. split; [reflexivity|].
  intros key Hkey. apply lookup_delete_ne. congruence.
Qed.

Lemma logout_clears_session_witness :
  Auth.currentUser (final (run provider_up (Auth.logout signed_in))) = None
  /\ Auth.localStorage (final (run provider_up (Auth.logout signed_in))) !! js "user"
     = None
  /\ Auth.currentUser (final (run provider_up (Auth.logout (Auth.initial ∅)))) = None.
Proof.
  destruct (logout_clears_session signed_in provider_up eq_refl) as (_ & Hu & Hs & _).
  destruct (logout_clears_session (Auth.initial ∅) provider_up eq_refl) as (_ & Hu' & _).
  split; [exact Hu|]. split; [exact Hs | exact Hu'].
Defined.

(** C10: when the provider call of login throws, no user is set, and
    when that of logout throws, neither the user nor local storage is
    touched; in both cases the state is the one before the call and the
    caller receives the very error the provider threw. *)
Theorem provider_failure_changes_nothing
    (s : Auth.State) (env : forall c, settled (Auth.reply c)) (err : thrown) :
  (env Auth.signInWithPopup = Rejected err ->
   final (run env (Auth.login s)) = s
   /\ result (run env (Auth.login s)) = Rejected err
   /\ pending (trace (run env (Auth.login s))) = [s])
  /\ (env Auth.signOut = Rejected err ->
      final (run env (Auth.logout s)) = s
      /\ result (run env (Auth.logout s)) = Rejected err
      /\ pending (trace (run env (Auth.logout s))) = [s]).
Proof.
  split; intros Henv.
  - unfold Auth.login. cbn [run]. rewrite Henv. simpl. auto.
  - unfold Auth.logout. cbn [run]. rewrite Henv. simpl. auto.
Qed.

Lemma provider_failure_changes_nothing_witness :
  (final (run provider_down (Auth.login (Auth.initial ∅))) = Auth.initial ∅
   /\ result (run provider_down (Auth.login (Auth.initial ∅))) = Rejected (External 7))
  /\ (final (run provider_down (Auth.logout signed_in)) = signed_in
      /\ result (run provider_down (Auth.logout signed_in)) = Rejected (External 7)).
Proof.
  destruct (provider_failure_changes_nothing (Auth.initial ∅) provider_down (External 7))
    as [Hin _].
  destruct (provider_failure_changes_nothing signed_in provider_down (External 7))
    as [_ Hout].
  destruct (Hin eq_refl) as (H1 & H2 & _). destruct (Hout eq_refl) as (H3 & H4 & _).
  split; split; assumption.
Defined.

(** * Further properties *)

Example encode_link :
  Share.encodeURIComponent (js "https://a.b/t?x=1&y z")
  = Some (js "https%3A%2F%2Fa.b%2Ft%3Fx%3D1%26y%20z").
Proof. reflexivity. Qed.

Example encode_e_acute : Share.encodeURIComponent [0xE9%N] = Some (js "%C3%A9").
Proof. reflexivity. Qed.

Example encode_euro : Share.encodeURIComponent [0x20AC%N] = Some (js "%E2%82%AC").
Proof. reflexivity. Qed.

Example encode_emoji :
  Share.encodeURIComponent [0xD83D; 0xDE00]%N = Some (js "%F0%9F%98%80").
Proof. reflexivity. Qed.

Example encode_lone_surrogate : Share.encodeURIComponent [0x41; 0xD83D; 0x42]%N = None.
Proof. reflexivity. Qed.

Example share_on_twitter :
  Share.handleShare (js "twitter") (js "https://m.io/t/1")
  = Some [Share.window_open
            (js "https://twitter.com/intent/tweet?text=Join%20my%20trip%20on%20MapSync%3A%20https%3A%2F%2Fm.io%2Ft%2F1")
            (js "_blank")].
Proof. reflexivity. Qed.

(** ** Encoding a URI component *)

Ltac N_bools :=
  repeat
    (rewrite ?orb_true_iff, ?andb_true_iff, ?orb_false_iff, ?andb_false_iff,
       ?N.leb_le, ?N.leb_gt, ?N.eqb_eq, ?N.eqb_neq, ?N.ltb_lt, ?N.ltb_ge in *).

Section Encoding.
Import Share.
Implicit Types (s out : jsstring) (c d : code_unit).

(** Induction that steps over one or two code units. *)
Lemma units_ind (P : jsstring -> Prop) :
  P [] -> (forall c, P [c]) ->
  (forall c d s, P s -> P (d :: s) -> P (c :: d :: s)) ->
  forall s, P s.
Proof.
  intros Hnil Hone Hstep s.
  assert (P s /\ forall c, P (c :: s)) as [H _]; [|exact H].
  induction s as [|d s [IH1 IH2]]; split; auto.
Qed.

Lemma unreserved_plain c :
  is_unreserved c = true -> is_leading c = false /\ is_trailing c = false.
Proof. unfold is_unreserved, is_leading, is_trailing. N_bools. lia. Qed.

Lemma hex_digit_unreserved n : (n < 16)%N -> is_unreserved (hex_digit n) = true.
Proof.
  intros H. unfold hex_digit, is_unreserved.
  destruct (N.ltb_spec n 10); N_bools; lia.
Qed.

Lemma percent_chars octet :
  (octet < 256)%N -> forallb component_char (percent octet) = true.
Proof.
  intros H. unfold percent, component_char. cbn [forallb].
  rewrite !hex_digit_unreserved; [reflexivity | |].
  - apply N.mod_upper_bound. discriminate.
  - apply N.Div0.div_lt_upper_bound. lia.
Qed.

Lemma utf8_octets cp :
  (cp < 0x110000)%N -> Forall (fun octet => (octet < 256)%N) (utf8 cp).
Proof.
  intros H. unfold utf8.
  assert (forall a, a mod 0x40 < 0x40)%N as Hmod
    by (intros a; apply N.mod_upper_bound; discriminate).
  pose proof (Hmod cp). pose proof (Hmod (cp / 0x40)%N). pose proof (Hmod (cp / 0x1000)%N).
  repeat match goal with |- context [N.ltb ?a ?b] => destruct (N.ltb_spec a b) end.
  - repeat (apply List.Forall_cons; [lia|]); apply List.Forall_nil.
  - assert (cp / 0x40 < 0x20)%N by (apply N.Div0.div_lt_upper_bound; lia).
    repeat (apply List.Forall_cons; [lia|]); apply List.Forall_nil.
  - assert (cp / 0x1000 < 0x10)%N by (apply N.Div0.div_lt_upper_bound; lia).
    repeat (apply List.Forall_cons; [lia|]); apply List.Forall_nil.
  - assert (cp / 0x40000 < 0x5)%N by (apply N.Div0.div_lt_upper_bound; lia).
    repeat (apply List.Forall_cons; [lia|]); apply List.Forall_nil.
Qed.

Lemma escape_chars cp :
  (cp < 0x110000)%N -> forallb component_char (escape cp) = true.
Proof.
  intros H. unfold escape. pose proof (utf8_octets cp H) as Hoct.
  induction Hoct as [|octet l Ho _ IH]; [reflexivity|].
  cbn [map concat]. rewrite forallb_app, percent_chars by exact Ho. exact IH.
Qed.

Lemma pair_code_point_bound c d :
  is_leading c = true -> is_trailing d = true -> (pair_code_point c d < 0x110000)%N.
Proof. unfold is_leading, is_trailing, pair_code_point. N_bools. lia. Qed.

Lemma encode_cons c rest :
  encodeURIComponent (c :: rest)
  = if is_unreserved c then
      match encodeURIComponent rest with
      | Some out => Some (c :: out)
      | None => None
      end
    else if is_trailing c then None
    else if is_leading c then
      match rest with
      | d :: rest' =>
          if is_trailing d then
            match encodeURIComponent rest' with
            | Some out => Some (escape (pair_code_point c d) ++ out)
            | None => None
            end
          else None
      | [] => None
      end
    else
      match encodeURIComponent rest with
      | Some out => Some (escape c ++ out)
      | None => None
      end.
Proof. reflexivity. Qed.

Lemma isWellFormed_cons c rest :
  isWellFormed (c :: rest)
  = if is_trailing c then false
    else if is_leading c then
      match rest with
      | d :: rest' => is_trailing d && isWellFormed rest'
      | [] => false
      end
    else isWellFormed rest.
Proof. reflexivity. Qed.

Lemma encode_chars s :
  code_units s ->
  forall out, encodeURIComponent s = Some out -> forallb component_char out = true.
Proof.
  unfold code_units. induction s as [| c | c d s IH1 IH2] using units_ind.
  - intros _ out [= <-]. reflexivity.
  - intros Hs out. inversion Hs as [|? ? Hc _]; subst. cbn [encodeURIComponent].
    destruct (is_unreserved c) eqn:Hu.
    + intros [= <-]. cbn. unfold component_char. rewrite Hu. reflexivity.
    + destruct (is_trailing c); [discriminate|].
      destruct (is_leading c); [discriminate|].
      intros [= <-]. rewrite app_nil_r. apply escape_chars. lia.
  - intros Hs out.
    inversion Hs as [|? ? Hc Hrest]; subst.
    inversion Hrest as [|? ? Hd Hs']; subst.
    rewrite encode_cons.
    destruct (is_unreserved c) eqn:Hu.
    + destruct (encodeURIComponent (d :: s)) as [o|] eqn:E; [|discriminate].
      intros [= <-]. cbn [forallb]. unfold component_char at 1. rewrite Hu.
      apply (IH2 Hrest o eq_refl).
    + destruct (is_trailing c); [discriminate|].
      destruct (is_leading c) eqn:Hl.
      * destruct (is_trailing d) eqn:Ht; [|discriminate].
        destruct (encodeURIComponent s) as [o|] eqn:E; [|discriminate].
        intros [= <-]. rewrite forallb_app, escape_chars, (IH1 Hs' o eq_refl);
          [reflexivity | apply pair_code_point_bound; assumption].
      * destruct (encodeURIComponent (d :: s)) as [o|] eqn:E; [|discriminate].
        intros [= <-]. rewrite forallb_app, escape_chars, (IH2 Hrest o eq_refl);
          [reflexivity | lia].
Qed.

Lemma encode_well_formed s :
  isWellFormed s = true <-> is_Some (encodeURIComponent s).
Proof.
  induction s as [| c | c d s IH1 IH2] using units_ind.
  - simpl. split; eauto.
  - cbn [encodeURIComponent isWellFormed].
    destruct (is_unreserved c) eqn:Hu.
    + destruct (unreserved_plain c Hu) as [-> ->]. split; eauto.
    + destruct (is_trailing c); [split; [discriminate | intros [? [=]]]|].
      destruct (is_leading c); [split; [discriminate | intros [? [=]]]|].
      split; eauto.
  - rewrite encode_cons, isWellFormed_cons.
    destruct (is_unreserved c) eqn:Hu.
    + destruct (unreserved_plain c Hu) as [-> ->]. rewrite IH2.
      destruct (encodeURIComponent (d :: s)); split; eauto; intros [? [=]].
    + destruct (is_trailing c); [split; [discriminate | intros [? [=]]]|].
      destruct (is_leading c).
      * destruct (is_trailing d); [|split; [discriminate | intros [? [=]]]].
        cbn [andb]. rewrite IH1.
        destruct (encodeURIComponent s); split; eauto; intros [? [=]].
      * rewrite IH2.
        destruct (encodeURIComponent (d :: s)); split; eauto; intros [? [=]].
Qed.

Lemma encode_none s : encodeURIComponent s = None <-> isWellFormed s = false.
Proof.
  pose proof (encode_well_formed s) as H.
  destruct (encodeURIComponent s) as [out|];
    destruct (isWellFormed s); split; try congruence.
  - intros _. pose proof (proj2 H (ex_intro _ out eq_refl)). discriminate.
  - intros _. destruct (proj1 H eq_refl) as [? [=]].
Qed.

Lemma encode_unreserved s :
  forallb is_unreserved s = true -> encodeURIComponent s = Some s.
Proof.
  induction s as [|c s IH]; [reflexivity|].
  cbn [forallb encodeURIComponent]. intros [Hc Hs]%andb_true_iff.
  rewrite Hc, (IH Hs). reflexivity.
Qed.
End Encoding.

(** ** Sharing *)

Lemma component_char_excludes c :
  Share.component_char c = true ->
  c <> 0x26%N /\ c <> 0x3D%N /\ c <> 0x3F%N /\ c <> 0x23%N /\ c <> 0x2B%N
  /\ c <> 0x2F%N /\ c <> 0x3A%N /\ c <> 0x20%N.
Proof.
  unfold Share.component_char, Share.is_unreserved. N_bools. lia.
Qed.

(** [encodeURIComponent] leaves a text of unreserved characters as it
    is, and whatever it returns for a string of 16-bit code units is made
    of unreserved characters and percent signs only, so it contains none
    of [& = ? # + / :] and no space. *)
Theorem encoded_component_is_inert (s out : jsstring) :
  Share.code_units s ->
  Share.encodeURIComponent s = Some out ->
  (forall c, In c out ->
     Share.component_char c = true
     /\ c <> 0x26%N /\ c <> 0x3D%N /\ c <> 0x3F%N /\ c <> 0x23%N /\ c <> 0x2B%N
     /\ c <> 0x2F%N /\ c <> 0x3A%N /\ c <> 0x20%N)
  /\ (forallb Share.is_unreserved s = true -> out = s).
Proof.
  intros Hs Henc. split.
  - intros c Hin. pose proof (encode_chars s Hs out Henc) as H.
    rewrite forallb_forall in H. specialize (H c Hin).
    split; [exact H | apply component_char_excludes; exact H].
  - intros Hu. rewrite (encode_unreserved s Hu) in Henc. congruence.
Qed.

Lemma encoded_component_is_inert_witness :
  forall c, In c (js "a%26b%3D1%20c") -> c <> 0x26%N /\ c <> 0x20%N.
Proof.
  intros c Hin.
  destruct (encoded_component_is_inert (js "a&b=1 c") (js "a%26b%3D1%20c")) as [H _].
  - repeat (apply List.Forall_cons; [reflexivity|]). apply List.Forall_nil.
  - reflexivity.
  - destruct (H c Hin) as (_ & H26 & _ & _ & _ & _ & _ & _ & H20). split; assumption.
Defined.

(** [encodeURIComponent] throws exactly for the strings that contain
    a surrogate without its partner; for every other string it returns a
    result. *)
Theorem encode_throws_on_lone_surrogate (s : jsstring) :
  (Share.encodeURIComponent s = None <-> Share.isWellFormed s = false)
  /\ (Forall (fun c => (c < 0xD800)%N \/ (0xDFFF < c)%N) s ->
      is_Some (Share.encodeURIComponent s)).
Proof.
  split; [apply encode_none|].
  - intros H. apply encode_well_formed.
    induction H as [|c l Hc _ IH]; [reflexivity|].
    rewrite isWellFormed_cons.
    assert (Share.is_trailing c = false) as ->
      by (unfold Share.is_trailing; N_bools; lia).
    assert (Share.is_leading c = false) as ->
      by (unfold Share.is_leading; N_bools; lia).
    exact IH.
Qed.

Lemma encode_throws_on_lone_surrogate_witness :
  Share.encodeURIComponent [0x41; 0xDE00]%N = None
  /\ is_Some (Share.encodeURIComponent (js "Boston, MA")).
Proof.
  destruct (encode_throws_on_lone_surrogate [0x41; 0xDE00]%N) as [[_ H] _].
  destruct (encode_throws_on_lone_surrogate (js "Boston, MA")) as [_ H'].
  split; [apply H; reflexivity|].
  apply H'. repeat (apply List.Forall_cons; [left; reflexivity|]). apply List.Forall_nil.
Defined.

Lemma handleShare_facebook link :
  Share.handleShare (js "facebook") link
  = match Share.encodeURIComponent link with
    | Some u =>
        Some [Share.window_open
                (js "https://www.facebook.com/sharer/sharer.php?u=" ++ u) (js "_blank")]
    | None => None
    end.
Proof.
  unfold Share.handleShare. cbn [bool_decide decide_rel].
  rewrite bool_decide_eq_true_2 by reflexivity.
  destruct (Share.encodeURIComponent link); reflexivity.
Qed.

Lemma encode_message link :
  Share.encodeURIComponent (js "Join my trip on MapSync: " ++ link)
  = match Share.encodeURIComponent link with
    | Some u => Some (js "Join%20my%20trip%20on%20MapSync%3A%20" ++ u)
    | None => None
    end.
Proof.
  change (js "Join my trip on MapSync: " ++ link)
    with ([74;111;105;110;32;109;121;32;116;114;105;112;32;111;110;32;77;97;112;83;
           121;110;99;58;32]%N ++ link).
  cbn -[Share.encodeURIComponent].
  repeat (rewrite encode_cons; cbn -[Share.encodeURIComponent Share.escape app]).
  destruct (Share.encodeURIComponent link); reflexivity.
Qed.

Lemma handleShare_twitter link :
  Share.handleShare (js "twitter") link
  = match Share.encodeURIComponent link with
    | Some u =>
        Some [Share.window_open
                (js "https://twitter.com/intent/tweet?text="
                 ++ js "Join%20my%20trip%20on%20MapSync%3A%20" ++ u) (js "_blank")]
    | None => None
    end.
Proof.
  unfold Share.handleShare.
  rewrite bool_decide_eq_false_2 by discriminate.
  rewrite bool_decide_eq_true_2 by reflexivity.
  rewrite encode_message.
  destruct (Share.encodeURIComponent link); reflexivity.
Qed.

Lemma handleShare_whatsapp link :
  Share.handleShare (js "whatsapp") link
  = match Share.encodeURIComponent link with
    | Some u =>
        Some [Share.window_open
                (js "https://wa.me/?text="
                 ++ js "Join%20my%20trip%20on%20MapSync%3A%20" ++ u) (js "_blank")]
    | None => None
    end.
Proof.
  unfold Share.handleShare.
  rewrite !bool_decide_eq_false_2 by discriminate.
  rewrite bool_decide_eq_true_2 by reflexivity.
  rewrite encode_message.
  destruct (Share.encodeURIComponent link); reflexivity.
Qed.

Lemma known_platform_cases platform :
  Share.known_platform platform = true ->
  platform = js "facebook" \/ platform = js "twitter" \/ platform = js "whatsapp".
Proof.
  unfold Share.known_platform. rewrite !orb_true_iff, !bool_decide_eq_true. tauto.
Qed.

(** X1: [handleShare] with a platform other than ["facebook"],
    ["twitter"] and ["whatsapp"] (the comparison is exact, so also
    ["Facebook"]) opens no window and does not throw, whatever the link
    is. *)
Theorem share_unknown_platform (platform link : jsstring) :
  Share.known_platform platform = false ->
  Share.handleShare platform link = Some [].
Proof.
  unfold Share.known_platform, Share.handleShare.
  rewrite !orb_false_iff, !bool_decide_eq_false. intros [[H1 H2] H3].
  rewrite !bool_decide_eq_false_2 by assumption. reflexivity.
Qed.

Lemma share_unknown_platform_witness :
  Share.handleShare (js "Facebook") [0xDE00%N] = Some [].
Proof. apply share_unknown_platform. reflexivity. Defined.

(** X2: for one of the three platforms and a well-formed link,
    [handleShare] opens exactly one window, in a new tab, whose address
    is that platform's share address followed by characters that are all
    unreserved or percent signs: nothing in the link can end the
    parameter or add another.  For a link with a lone surrogate it throws
    and opens nothing. *)
Theorem share_known_platform (platform link : jsstring) :
  Share.known_platform platform = true ->
  Share.code_units link ->
  (Share.isWellFormed link = true ->
   exists base component,
     Share.handleShare platform link
     = Some [Share.window_open (base ++ component) (js "_blank")]
     /\ In (platform, base)
          [(js "facebook", js "https://www.facebook.com/sharer/sharer.php?u=");
           (js "twitter", js "https://twitter.com/intent/tweet?text=");
           (js "whatsapp", js "https://wa.me/?text=")]
     /\ forallb Share.component_char component = true)
  /\ (Share.isWellFormed link = false -> Share.handleShare platform link = None).
Proof.
  intros Hknown Hunits. split.
  - intros Hwf. apply encode_well_formed in Hwf as [u Hu].
    pose proof (encode_chars link Hunits u Hu) as Hsafe.
    destruct (known_platform_cases platform Hknown) as [-> | [-> | ->]].
    + rewrite handleShare_facebook, Hu. eexists _, u.
      split; [reflexivity|]. split; [left; reflexivity | exact Hsafe].
    + rewrite handleShare_twitter, Hu. eexists _, _.
      split; [reflexivity|]. split; [right; left; reflexivity|].
      rewrite forallb_app, Hsafe. reflexivity.
    + rewrite handleShare_whatsapp, Hu. eexists _, _.
      split; [reflexivity|]. split; [right; right; left; reflexivity|].
      rewrite forallb_app, Hsafe. reflexivity.
  - intros Hwf. apply encode_none in Hwf.
    destruct (known_platform_cases platform Hknown) as [-> | [-> | ->]].
    + rewrite handleShare_facebook, Hwf. reflexivity.
    + rewrite handleShare_twitter, Hwf. reflexivity.
    + rewrite handleShare_whatsapp, Hwf. reflexivity.
Qed.

Lemma share_known_platform_witness :
  Share.handleShare (js "whatsapp") [0xD83D%N] = None
  /\ exists base component,
      Share.handleShare (js "facebook") (js "https://m.io/t?a=1&b")
      = Some [Share.window_open (base ++ component) (js "_blank")]
      /\ forallb Share.component_char component = true.
Proof.
  split.
  - apply (share_known_platform (js "whatsapp") [0xD83D%N]); try reflexivity.
    repeat (apply List.Forall_cons; [reflexivity|]). apply List.Forall_nil.
  - destruct (share_known_platform (js "facebook") (js "https://m.io/t?a=1&b"))
      as [H _]; [reflexivity | |].
    + repeat (apply List.Forall_cons; [reflexivity|]). apply List.Forall_nil.
    + destruct (H eq_refl) as (base & component & Hopen & _ & Hsafe).
      exists base, component. split; assumption.
Defined.

(** ** Every way a submission can go *)

Lemma complete_located f :
  incomplete f = false -> exists here, currentLocation f = Some here.
Proof. intros H. apply incomplete_false in H as (_ & _ & [here H]). eauto. Qed.

Lemma delegated_outcomes currentUser random env f :
  let o := run env (Delegated.handleSubmit currentUser random f) in
  (incomplete f = true
   /\ o = {| trace := [Effect Delegated.preventDefault];
             final := setError validation_message f;
             result := Fulfilled tt |})
  \/ (exists here tripId,
        incomplete f = false /\ currentLocation f = Some here
        /\ env (Delegated.createTrip (Delegated.tripData currentUser random here f))
           = Fulfilled tripId
        /\ o = {| trace :=
                    [Effect Delegated.preventDefault;
                     Called (setError [] (setIsLoading true f))
                       (Delegated.createTrip
                          (Delegated.tripData currentUser random here f));
                     Effect Delegated.onClose;
                     Effect (Delegated.navigate (js "/trip/" ++ tripId))];
                  final := setIsLoading false (setError [] (setIsLoading true f));
                  result := Fulfilled tt |})
  \/ (exists here err,
        incomplete f = false /\ currentLocation f = Some here
        /\ env (Delegated.createTrip (Delegated.tripData currentUser random here f))
           = Rejected err
        /\ o = {| trace :=
                    [Effect Delegated.preventDefault;
                     Called (setError [] (setIsLoading true f))
                       (Delegated.createTrip
                          (Delegated.tripData currentUser random here f));
                     Effect (Delegated.console_error err)];
                  final :=
                    setIsLoading false
                      (setError failure_message (setError [] (setIsLoading true f)));
                  result := Fulfilled tt |}).
Proof.
  intros o. subst o. destruct (incomplete f) eqn:H.
  - left. split; [reflexivity|]. apply delegated_blocked. exact H.
  - right. destruct (complete_located f H) as [here Hloc].
    destruct (env (Delegated.createTrip (Delegated.tripData currentUser random here f)))
      as [tripId|err] eqn:E.
    + left. exists here, tripId. repeat split; try assumption.
      apply delegated_created; assumption.
    + right. exists here, err. repeat split; try assumption.
      apply delegated_rejected; assumption.
Qed.

Lemma direct_outcomes currentUser env s :
  let o := run env (DirectHttp.handleSubmit currentUser s) in
  (incomplete (DirectHttp.form s) = true
   /\ o = {| trace := [Effect DirectHttp.preventDefault];
             final := DirectHttp.onForm (setError validation_message) s;
             result := Fulfilled tt |})
  \/ (exists here,
        incomplete (DirectHttp.form s) = false
        /\ currentLocation (DirectHttp.form s) = Some here
        /\ ((exists rest err,
               trace o
               = [Effect DirectHttp.preventDefault;
                  Called (DirectHttp.submitting s)
                    (DirectHttp.request
                       (DirectHttp.tripData currentUser here (DirectHttp.form s)))]
                 ++ rest ++ [Effect (DirectHttp.console_error err)]
               /\ effects rest = []
               /\ Forall (eq (DirectHttp.submitting s)) (pending rest)
               /\ final o = DirectHttp.given_up s)
            \/ (exists rest shareLink,
                  trace o
                  = [Effect DirectHttp.preventDefault;
                     Called (DirectHttp.submitting s)
                       (DirectHttp.request
                          (DirectHttp.tripData currentUser here (DirectHttp.form s)))]
                    ++ rest
                  /\ effects rest = []
                  /\ Forall (eq (DirectHttp.submitting s)) (pending rest)
                  /\ final o
                     = DirectHttp.onForm (setIsLoading false)
                         (DirectHttp.setShowShareView true
                            (DirectHttp.setShareableLink shareLink
                               (DirectHttp.submitting s)))))).
Proof.
  intros o. subst o. destruct (incomplete (DirectHttp.form s)) eqn:H.
  - left. split; [reflexivity|]. apply direct_blocked. exact H.
  - right. destruct (complete_located _ H) as [here Hloc]. exists here.
    split; [reflexivity|]. split; [exact Hloc|].
    set (t := DirectHttp.tripData currentUser here (DirectHttp.form s)).
    destruct (env (DirectHttp.request t)) as [response|err] eqn:Henv.
    + destruct (DirectHttp.ok response) eqn:Hok.
      * destruct (env (DirectHttp.response_json response)) as [data|err] eqn:Hbody.
        -- destruct (destructure (js "shareLink") data) as [v|e] eqn:Hv.
           ++ right.
              rewrite (direct_shared currentUser env s here response data v)
                by assumption.
              exists [Called (DirectHttp.submitting s) (DirectHttp.response_json response)], v.
              simpl. repeat split. repeat constructor.
           ++ left. destruct data; try discriminate.
              ** rewrite (direct_unreadable currentUser env s here response TypeError)
                   by auto.
                 exists [Called (DirectHttp.submitting s) (DirectHttp.response_json response)],
                   TypeError.
                 simpl. repeat split. repeat constructor.
              ** simpl in Hv. destruct (fields !! js "shareLink"); discriminate.
        -- left.
           rewrite (direct_unreadable currentUser env s here response err) by auto.
           exists [Called (DirectHttp.submitting s) (DirectHttp.response_json response)],
             err.
           simpl. repeat split. repeat constructor.
      * left. rewrite (direct_refused currentUser env s here response) by assumption.
        exists [], (Error (js "Failed to create trip")). simpl. repeat split. constructor.
    + left. rewrite (direct_unreachable currentUser env s here err) by assumption.
      exists [], err. simpl. repeat split. constructor.
Qed.

(** ** More on the stops list and the suggestions *)

(** X3: pressing the add button twice in a row adds the stop once: the
    first press empties the input, so the second finds nothing to add. *)
Theorem add_stop_twice (f : Form) :
  handleAddStop (handleAddStop f) = handleAddStop f
  /\ (forallb isWhiteSpace (newStop f) = false -> newStop (handleAddStop f) = []).
Proof.
  split.
  - unfold handleAddStop at 2 3. destruct (truthy (trim (newStop f))) eqn:E.
    + reflexivity.
    + unfold handleAddStop. rewrite E. reflexivity.
  - intros H. rewrite handleAddStop_text by exact H. reflexivity.
Qed.

Lemma add_stop_twice_witness :
  stops (handleAddStop (handleAddStop three_stops))
  = [js "Reno"; js "Reno"; js "Tonopah"; js "Lake Tahoe"]
  /\ newStop (handleAddStop three_stops) = [].
Proof.
  destruct (add_stop_twice three_stops) as [Htwice Hinput].
  split; [rewrite Htwice; reflexivity | apply Hinput; reflexivity].
Defined.

(** X4: adding a stop and then removing the last position gives back the
    stops the form had before. *)
Theorem add_then_remove_last (f : Form) :
  forallb isWhiteSpace (newStop f) = false ->
  stops (handleRemoveStop (Z.of_nat (length (stops f))) (handleAddStop f)) = stops f.
Proof.
  intros H. rewrite handleAddStop_text by exact H.
  set (g := setNewStop [] (setStops (stops f ++ [trim (newStop f)]) f)).
  rewrite (handleRemoveStop_at g (length (stops f))).
  - subst g. cbn [stops setNewStop setStops].
    rewrite take_app_length. rewrite drop_ge by (rewrite length_app; simpl; lia).
    apply app_nil_r.
  - subst g. cbn [stops setNewStop setStops]. rewrite length_app. simpl. lia.
Qed.

Lemma add_then_remove_last_witness :
  stops (handleRemoveStop 3 (handleAddStop three_stops))
  = [js "Reno"; js "Reno"; js "Tonopah"].
Proof. apply (add_then_remove_last three_stops). reflexivity. Defined.

(** X5: whichever suggestion offered for a typed destination is clicked,
    the destination becomes its description, which is not empty and
    contains the typed text, and the list of suggestions is closed. *)
Theorem click_offered_suggestion (value : jsstring) (f : Form) (g : PlaceSuggestion) :
  In g (suggestions (handleDestinationChange value f)) ->
  let f' := handleSuggestionClick g (handleDestinationChange value f) in
  destination f' = description g
  /\ includes value (destination f') = true
  /\ destination f' <> []
  /\ suggestions f' = []
  /\ suggestions_shown f' = false
  /\ forallb isWhiteSpace value = false.
Proof.
  intros Hin f'. subst f'.
  unfold handleDestinationChange, getPlaceSuggestions in *.
  destruct (truthy (trim value)) eqn:E; cbn [negb] in *; [|destruct Hin].
  assert (value <> []) as Hne by (intros ->; discriminate).
  assert (forallb isWhiteSpace value = false) as Hblank.
  { destruct (forallb isWhiteSpace value) eqn:B; [|reflexivity].
    apply trim_nil in B. rewrite B in E. discriminate. }
  cbn [suggestions setSuggestions] in Hin.
  destruct Hin as [<- | [<- | [<- | []]]]; cbn;
    (repeat split; try exact Hblank; try apply includes_prefix;
     destruct value; [congruence | discriminate]).
Qed.

Lemma click_offered_suggestion_witness :
  destination
    (handleSuggestionClick
       {| description := js "Austin, Texas, USA"; place_id := js "3" |}
       (handleDestinationChange (js "Austin") initialForm))
  = js "Austin, Texas, USA".
Proof.
  apply (click_offered_suggestion (js "Austin") initialForm
           {| description := js "Austin, Texas, USA"; place_id := js "3" |}).
  right. right. left. reflexivity.
Defined.

(** ** What a submission leaves of the form *)

Lemma delegated_final_shape currentUser random env f :
  exists b e,
    final (run env (Delegated.handleSubmit currentUser random f))
    = setIsLoading b (setError e f).
Proof.
  destruct (delegated_outcomes currentUser random env f)
    as [[_ Ho] | [(here & id & _ & _ & _ & Ho) | (here & err & _ & _ & _ & Ho)]];
    rewrite Ho; cbn [final].
  - exists (isLoading f), validation_message. destruct f; reflexivity.
  - exists false, []. reflexivity.
  - exists false, failure_message. reflexivity.
Qed.

Lemma direct_final_shape currentUser env s :
  exists b e,
    DirectHttp.form (final (run env (DirectHttp.handleSubmit currentUser s)))
    = setIsLoading b (setError e (DirectHttp.form s)).
Proof.
  destruct (direct_outcomes currentUser env s)
    as [[_ Ho] | (here & _ & _ & [(rest & err & _ & _ & _ & Ho)
                                | (rest & v & _ & _ & _ & Ho)])];
    rewrite Ho; cbn [final].
  - exists (isLoading (DirectHttp.form s)), validation_message.
    destruct s as [[] ? ?]; reflexivity.
  - exists false, failure_message. reflexivity.
  - exists false, []. reflexivity.
Qed.

(** ** The request of any complete draft *)

Lemma js_inj a b : js a = js b -> a = b.
Proof.
  unfold js. intros H.
  rewrite <- (string_of_list_ascii_of_string a), <- (string_of_list_ascii_of_string b).
  f_equal. revert H.
  generalize (list_ascii_of_string a) (list_ascii_of_string b).
  induction l as [|x l IH]; intros [|y l']; simpl; try discriminate; [reflexivity|].
  intros [= Hxy Hl]. f_equal; [|apply IH; exact Hl].
  rewrite <- (ascii_N_embedding x), <- (ascii_N_embedding y), Hxy. reflexivity.
Qed.

Lemma decimal_inj n m : decimal n = decimal m -> n = m.
Proof.
  unfold decimal. intros H. apply js_inj in H.
  apply (f_equal NilEmpty.uint_of_string) in H. rewrite !NilEmpty.usu in H.
  injection H as H. apply (f_equal Nat.of_uint) in H.
  rewrite !Unsigned.of_to in H. exact H.
Qed.

Lemma map_from_map {A B C} (h : B -> C) (f : A -> nat -> B) (l : list A) :
  forall start, map h (map_from f start l) = map_from (fun x i => h (f x i)) start l.
Proof. induction l as [|x l IH]; intros start; simpl; [|rewrite IH]; reflexivity. Qed.

Lemma map_from_index {A B} (g : nat -> B) (l : list A) :
  forall start, map_from (fun _ i => g i) start l = map g (seq start (length l)).
Proof. induction l as [|x l IH]; intros start; simpl; [|rewrite IH]; reflexivity. Qed.

Lemma map_from_value {A} (l : list A) :
  forall start, map_from (fun x _ => x) start l = l.
Proof. induction l as [|x l IH]; intros start; simpl; [|rewrite IH]; reflexivity. Qed.

(** X8: the payload handed to [createTrip] lists the stops in the order
    of the form, the stop at position [i] carrying the id ["stop" + i]; no
    two stops share an id, also when they share a name; the creator is
    the only participant; the origin is named ["Current Location"]. *)
Theorem delegated_payload_stops
    (currentUser : option Auth.User) (random : nat -> number) (here : LatLng)
    (f : Form) :
  let t := Delegated.tripData currentUser random here f in
  map Delegated.Stop.name (Delegated.TripData.stops t) = stops f
  /\ map Delegated.Stop.id (Delegated.TripData.stops t)
     = map (fun i => js "stop" ++ decimal i) (seq 0 (length (stops f)))
  /\ List.NoDup (map Delegated.Stop.id (Delegated.TripData.stops t))
  /\ Delegated.TripData.participants t = [Delegated.TripData.createdBy t]
  /\ Delegated.TripData.origin t
     = {| Delegated.Place.name := js "Current Location";
          Delegated.Place.location := here |}.
Proof.
  intros t. subst t. unfold Delegated.tripData.
  cbn [Delegated.TripData.stops Delegated.TripData.participants
       Delegated.TripData.createdBy Delegated.TripData.origin].
  assert (map Delegated.Stop.id
            (map_from (fun stop index =>
               {| Delegated.Stop.id := js "stop" ++ decimal index;
                  Delegated.Stop.name := stop;
                  Delegated.Stop.location :=
                    Delegated.mockCoordinates random (2 * index) |}) 0 (stops f))
          = map (fun i => js "stop" ++ decimal i) (seq 0 (length (stops f)))) as Hids.
  { rewrite map_from_map. cbn [Delegated.Stop.id].
    apply (map_from_index (fun i => js "stop" ++ decimal i)). }
  split; [|split; [exact Hids | split; [|split; reflexivity]]].
  - rewrite map_from_map. cbn [Delegated.Stop.name]. apply map_from_value.
  - rewrite Hids. apply Injective_map_NoDup; [|apply List.seq_NoDup].
    intros i j Hij. apply app_inv_head in Hij. apply decimal_inj. exact Hij.
Qed.

(** X9: every complete draft, whatever its stops and even when its name
    or destination is nothing but white space (the guard tests emptiness,
    not the trimmed text), issues exactly one creation request, carrying
    the name and the destination as typed and the stops in order; the
    posting revision sends it by POST as JSON to the [newtrip] address. *)
Theorem complete_draft_sends_one_request
    (currentUser : option Auth.User) (random : nat -> number)
    (s : DirectHttp.State) (here : LatLng)
    (envB : forall c, settled (Delegated.reply c))
    (envA : forall c, settled (DirectHttp.reply c)) :
  let f := DirectHttp.form s in
  tripName f <> [] -> destination f <> [] -> currentLocation f = Some here ->
  (exists t,
      calls (trace (run envB (Delegated.handleSubmit currentUser random f)))
      = [Delegated.createTrip t]
      /\ Delegated.TripData.name t = tripName f
      /\ Delegated.Place.name (Delegated.TripData.destination t) = destination f
      /\ Delegated.Place.location (Delegated.TripData.origin t) = here
      /\ map Delegated.Stop.name (Delegated.TripData.stops t) = stops f)
  /\ (exists t,
      List.filter DirectHttp.is_fetch
        (calls (trace (run envA (DirectHttp.handleSubmit currentUser s))))
      = [DirectHttp.fetch (js "https://mapsync.onrender.com/newtrip")
           {| DirectHttp.method := js "POST";
              DirectHttp.headers := {[ js "Content-Type" := js "application/json" ]};
              DirectHttp.body := t |}]
      /\ DirectHttp.TripData.name t = tripName f
      /\ DirectHttp.Place.name (DirectHttp.TripData.destination t) = destination f
      /\ DirectHttp.Place.location (DirectHttp.TripData.origin t) = here
      /\ map DirectHttp.Place.name (DirectHttp.TripData.stops t) = stops f).
Proof.
  intros f Hname Hdest Hloc.
  assert (incomplete f = false) as H.
  { apply incomplete_false. unfold complete. rewrite Hloc. eauto. }
  split.
  - exists (Delegated.tripData currentUser random here f).
    rewrite delegated_calls, H, Hloc. repeat split.
    unfold Delegated.tripData. cbn [Delegated.TripData.stops].
    rewrite map_from_map. cbn [Delegated.Stop.name]. apply map_from_value.
  - exists (DirectHttp.tripData currentUser here f).
    destruct (direct_cases currentUser envA s here H Hloc) as (_ & Hcalls & _).
    split; [exact Hcalls|]. repeat split.
    unfold DirectHttp.tripData. cbn [DirectHttp.TripData.stops].
    rewrite map_map. cbn [DirectHttp.Place.name]. apply map_id.
Qed.

Lemma complete_draft_sends_one_request_witness :
  exists t,
    calls (trace (run declines
      (Delegated.handleSubmit None half (DirectHttp.form blank_names))))
    = [Delegated.createTrip t]
    /\ Delegated.TripData.name t = js "  "
    /\ map Delegated.Stop.name (Delegated.TripData.stops t) = [js "Reno"].
Proof.
  destruct (complete_draft_sends_one_request None half blank_names
              {| lat := 40.7; lng := -74.0 |} declines (answers 200 link_body))
    as [(t & Hcalls & Hname & _ & _ & Hstops) _];
    [discriminate | discriminate | reflexivity |].
  exists t. split; [exact Hcalls|]. split; [exact Hname | exact Hstops].
Defined.

(** ** What a submission does besides its request *)

Lemma effects_app {St call effect : Type} (t u : list (event St call effect)) :
  effects (t ++ u) = effects t ++ effects u.
Proof.
  induction t as [|[e|st c] t IH]; simpl; [reflexivity | f_equal; exact IH | exact IH].
Qed.

(** X10: a run of the delegating [handleSubmit] does one of three
    things: blocked by validation, it calls nothing and logs nothing;
    when [createTrip] resolves to an id, it closes the modal and then
    navigates to ["/trip/" + id], logging nothing; when [createTrip]
    rejects, it logs that very error once and neither closes nor
    navigates. *)
Theorem delegated_side_effects
    (currentUser : option Auth.User) (random : nat -> number)
    (env : forall c, settled (Delegated.reply c)) (f : Form) :
  let o := run env (Delegated.handleSubmit currentUser random f) in
  (calls (trace o) = []
   /\ effects (trace o) = [Delegated.preventDefault]
   /\ error (final o) = validation_message)
  \/ (exists t tripId,
        calls (trace o) = [Delegated.createTrip t]
        /\ env (Delegated.createTrip t) = Fulfilled tripId
        /\ effects (trace o)
           = [Delegated.preventDefault; Delegated.onClose;
              Delegated.navigate (js "/trip/" ++ tripId)]
        /\ error (final o) = [])
  \/ (exists t err,
        calls (trace o) = [Delegated.createTrip t]
        /\ env (Delegated.createTrip t) = Rejected err
        /\ effects (trace o) = [Delegated.preventDefault; Delegated.console_error err]
        /\ error (final o) = failure_message).
Proof.
  intros o. subst o.
  destruct (delegated_outcomes currentUser random env f)
    as [[_ Ho] | [(here & id & _ & _ & E & Ho) | (here & err & _ & _ & E & Ho)]];
    rewrite Ho.
  - left. repeat split.
  - right. left. eexists _, id. repeat split. exact E.
  - right. right. eexists _, err. repeat split. exact E.
Qed.

(** X11: a run of the posting [handleSubmit] logs nothing when it is
    blocked by validation or ends in the share view, and logs exactly one
    error, as its last act, when it gives up; having given up, the form
    shows the failure message and the share state is as before. *)
Theorem direct_side_effects
    (currentUser : option Auth.User)
    (env : forall c, settled (DirectHttp.reply c)) (s : DirectHttp.State) :
  let o := run env (DirectHttp.handleSubmit currentUser s) in
  (calls (trace o) = []
   /\ effects (trace o) = [DirectHttp.preventDefault]
   /\ final o = DirectHttp.onForm (setError validation_message) s)
  \/ (calls (trace o) <> []
      /\ effects (trace o) = [DirectHttp.preventDefault]
      /\ DirectHttp.showShareView (final o) = true
      /\ error (DirectHttp.form (final o)) = [])
  \/ (exists err earlier,
        calls (trace o) <> []
        /\ trace o = earlier ++ [Effect (DirectHttp.console_error err)]
        /\ effects (trace o) = [DirectHttp.preventDefault; DirectHttp.console_error err]
        /\ error (DirectHttp.form (final o)) = failure_message
        /\ DirectHttp.showShareView (final o) = DirectHttp.showShareView s
        /\ DirectHttp.shareableLink (final o) = DirectHttp.shareableLink s).
Proof.
  intros o. subst o.
  destruct (direct_outcomes currentUser env s)
    as [[_ Ho] | (here & _ & _ & [(rest & err & Ht & He & _ & Hf)
                                | (rest & v & Ht & He & _ & Hf)])].
  - left. rewrite Ho. repeat split.
  - right. right. exists err. eexists. rewrite Ht, Hf.
    split; [discriminate|]. split; [rewrite app_assoc; reflexivity|].
    cbn [app effects]. rewrite effects_app, He. repeat split.
  - right. left. rewrite Ht, Hf. split; [discriminate|].
    cbn [app effects]. rewrite He. repeat split.
Qed.

(** ** Invariants of the form over its whole life *)

Lemma getPlaceSuggestions_any_form input f g :
  suggestions (getPlaceSuggestions input f) = suggestions (getPlaceSuggestions input g).
Proof. unfold getPlaceSuggestions. destruct (negb _); reflexivity. Qed.

Lemma getPlaceSuggestions_destination input f :
  destination (getPlaceSuggestions input f) = destination f.
Proof. unfold getPlaceSuggestions. destruct (negb _); reflexivity. Qed.

Lemma apply_edit_suggestions e f :
  suggestions_current f -> suggestions_current (apply_edit e f).
Proof.
  unfold suggestions_current. intros H. destruct e; cbn [apply_edit]; try exact H.
  - right. unfold handleDestinationChange.
    rewrite getPlaceSuggestions_destination. cbn [destination setDestination].
    apply getPlaceSuggestions_any_form.
  - left. reflexivity.
  - unfold handleAddStop. destruct (truthy _); exact H.
Qed.

Lemma apply_edit_location e f :
  finds_location e = false -> currentLocation (apply_edit e f) = currentLocation f.
Proof.
  destruct e; cbn [apply_edit finds_location]; try reflexivity; try discriminate.
  - intros _. unfold handleDestinationChange, getPlaceSuggestions.
    destruct (negb _); reflexivity.
  - intros _. unfold handleAddStop. destruct (truthy _); reflexivity.
Qed.

Lemma delegated_step_invariants f a :
  (suggestions_current f -> suggestions_current (Delegated.step f a))
  /\ ((match a with Delegated.Edit e => finds_location e | _ => false end) = false ->
      currentLocation (Delegated.step f a) = currentLocation f).
Proof.
  destruct a as [e|currentUser random env]; cbn [Delegated.step].
  - split; [apply apply_edit_suggestions | apply apply_edit_location].
  - destruct (delegated_final_shape currentUser random env f) as (b & e & ->).
    split; [intros H; exact H | reflexivity].
Qed.

Lemma direct_step_invariants s a :
  (suggestions_current (DirectHttp.form s) ->
   suggestions_current (DirectHttp.form (DirectHttp.step s a)))
  /\ ((match a with DirectHttp.Edit e => finds_location e | _ => false end) = false ->
      currentLocation (DirectHttp.form (DirectHttp.step s a))
      = currentLocation (DirectHttp.form s)).
Proof.
  destruct a as [e|currentUser env]; cbn [DirectHttp.step].
  - split; [apply apply_edit_suggestions | apply apply_edit_location].
  - destruct (direct_final_shape currentUser env s) as (b & e & ->).
    split; [intros H; exact H | reflexivity].
Qed.

(** X12: at every moment of the form's life the suggestions are either
    closed or exactly those the lookup gives for the text now in the
    destination field: three of them, with the ids ["1"], ["2"], ["3"],
    each containing that text.  Both revisions. *)
Theorem suggestions_follow_destination :
  (forall actions,
      let f := Delegated.after actions in
      suggestions f = []
      \/ (map description (suggestions f)
          = [destination f ++ js ", New York, USA";
             destination f ++ js ", California, USA";
             destination f ++ js ", Texas, USA"]
          /\ map place_id (suggestions f) = [js "1"; js "2"; js "3"]))
  /\ (forall actions,
      let f := DirectHttp.form (DirectHttp.after actions) in
      suggestions f = []
      \/ (map description (suggestions f)
          = [destination f ++ js ", New York, USA";
             destination f ++ js ", California, USA";
             destination f ++ js ", Texas, USA"]
          /\ map place_id (suggestions f) = [js "1"; js "2"; js "3"])).
Proof.
  assert (forall f, suggestions_current f ->
            suggestions f = []
            \/ (map description (suggestions f)
                = [destination f ++ js ", New York, USA";
                   destination f ++ js ", California, USA";
                   destination f ++ js ", Texas, USA"]
                /\ map place_id (suggestions f) = [js "1"; js "2"; js "3"])) as Hshape.
  { intros f [H | H]; [left; exact H|].
    unfold getPlaceSuggestions in H. destruct (negb _); rewrite H; [left | right];
      split; reflexivity. }
  split; intros actions f; apply Hshape; subst f.
  - unfold Delegated.after.
    assert (suggestions_current initialForm) as H0 by (left; reflexivity).
    revert H0. generalize initialForm.
    induction actions as [|a actions IH]; intros f0 H0; [exact H0|].
    apply IH. apply delegated_step_invariants. exact H0.
  - unfold DirectHttp.after.
    assert (suggestions_current (DirectHttp.form DirectHttp.initial)) as H0
      by (left; reflexivity).
    revert H0. generalize DirectHttp.initial.
    induction actions as [|a actions IH]; intros s0 H0; [exact H0|].
    apply IH. apply direct_step_invariants. exact H0.
Qed.

(** X13: as long as the geolocation service has not delivered a position,
    no sequence of edits and submissions makes the form issue a request:
    the origin stays unresolved and every submit is turned down with the
    validation message.  Both revisions. *)
Theorem no_request_before_location
    (currentUser : option Auth.User) (random : nat -> number)
    (envB : forall c, settled (Delegated.reply c))
    (envA : forall c, settled (DirectHttp.reply c))
    (actionsB : list Delegated.action) (actionsA : list DirectHttp.action) :
  forallb (fun a => match a with Delegated.Edit e => negb (finds_location e) | _ => true end)
    actionsB = true ->
  forallb (fun a => match a with DirectHttp.Edit e => negb (finds_location e) | _ => true end)
    actionsA = true ->
  (currentLocation (Delegated.after actionsB) = None
   /\ calls (trace (run envB
        (Delegated.handleSubmit currentUser random (Delegated.after actionsB)))) = []
   /\ error (final (run envB
        (Delegated.handleSubmit currentUser random (Delegated.after actionsB))))
      = validation_message)
  /\ (currentLocation (DirectHttp.form (DirectHttp.after actionsA)) = None
      /\ calls (trace (run envA
           (DirectHttp.handleSubmit currentUser (DirectHttp.after actionsA)))) = []
      /\ error (DirectHttp.form (final (run envA
           (DirectHttp.handleSubmit currentUser (DirectHttp.after actionsA)))))
         = validation_message).
Proof.
  intros HB HA.
  assert (currentLocation (Delegated.after actionsB) = None) as HlocB.
  { unfold Delegated.after.
    assert (currentLocation initialForm = None) as H0 by reflexivity.
    revert H0 HB. generalize initialForm.
    induction actionsB as [|a actions IH]; intros f0 H0 HB; [exact H0|].
    cbn [forallb] in HB. apply andb_true_iff in HB as [Ha HB].
    cbn [fold_left]. apply IH; [|exact HB].
    rewrite (proj2 (delegated_step_invariants f0 a)); [exact H0|].
    destruct a; [apply negb_true_iff in Ha; exact Ha | reflexivity]. }
  assert (currentLocation (DirectHttp.form (DirectHttp.after actionsA)) = None) as HlocA.
  { unfold DirectHttp.after.
    assert (currentLocation (DirectHttp.form DirectHttp.initial) = None) as H0
      by reflexivity.
    revert H0 HA. generalize DirectHttp.initial.
    induction actionsA as [|a actions IH]; intros s0 H0 HA; [exact H0|].
    cbn [forallb] in HA. apply andb_true_iff in HA as [Ha HA].
    cbn [fold_left]. apply IH; [|exact HA].
    rewrite (proj2 (direct_step_invariants s0 a)); [exact H0|].
    destruct a; [apply negb_true_iff in Ha; exact Ha | reflexivity]. }
  split.
  - split; [exact HlocB|].
    rewrite delegated_blocked by (apply incomplete_true; auto). split; reflexivity.
  - split; [exact HlocA|].
    rewrite direct_blocked by (apply incomplete_true; auto). split; reflexivity.
Qed.

Lemma no_request_before_location_witness :
  calls (trace (run creates
    (Delegated.handleSubmit (Some alice) half
       (Delegated.after
          [Delegated.Edit (TypeTripName (js "Weekend Trip"));
           Delegated.Edit LocationFailed;
           Delegated.Edit (TypeDestination (js "Boston, MA"));
           Delegated.Submit (Some alice) half creates])))) = [].
Proof.
  destruct (no_request_before_location (Some alice) half creates (answers 200 link_body)
              [Delegated.Edit (TypeTripName (js "Weekend Trip"));
               Delegated.Edit LocationFailed;
               Delegated.Edit (TypeDestination (js "Boston, MA"));
               Delegated.Submit (Some alice) half creates] [])
    as [(_ & H & _) _]; [reflexivity | reflexivity | exact H].
Defined.

Lemma direct_step_share s a :
  (DirectHttp.showShareView s = true ->
   DirectHttp.showShareView (DirectHttp.step s a) = true)
  /\ ((DirectHttp.showShareView s = false ->
       DirectHttp.shareableLink s = Value (JString [])) ->
      DirectHttp.showShareView (DirectHttp.step s a) = false ->
      DirectHttp.shareableLink (DirectHttp.step s a) = Value (JString [])).
Proof.
  destruct a as [e|currentUser env]; cbn [DirectHttp.step].
  - split; intros H; exact H.
  - destruct (direct_outcomes currentUser env s)
      as [[_ Ho] | (here & _ & _ & [(rest & err & _ & _ & _ & Ho)
                                  | (rest & v & _ & _ & _ & Ho)])];
      rewrite Ho; cbn; split; auto; discriminate.
Qed.

(** X14: in the posting revision the form is never on screen together
    with a link: whenever the share view is off, the shareable link is
    still the empty string it started as (so the label ["Update Trip"]
    and the link box inside the form never appear); and once the share
    view is on, nothing the component does turns it off again. *)
Theorem share_view_is_final (actions more : list DirectHttp.action) :
  let s := DirectHttp.after actions in
  (DirectHttp.showShareView s = false ->
   DirectHttp.shareableLink s = Value (JString []))
  /\ (DirectHttp.showShareView s = true ->
      DirectHttp.showShareView (fold_left DirectHttp.step more s) = true).
Proof.
  intros s. subst s. split.
  - unfold DirectHttp.after.
    assert (DirectHttp.showShareView DirectHttp.initial = false ->
            DirectHttp.shareableLink DirectHttp.initial = Value (JString [])) as H0
      by reflexivity.
    revert H0. generalize DirectHttp.initial.
    induction actions as [|a actions IH]; intros s0 H0; [exact H0|].
    cbn [fold_left]. apply IH. apply direct_step_share. exact H0.
  - generalize (DirectHttp.after actions).
    induction more as [|a more IH]; intros s0 H0; [exact H0|].
    cbn [fold_left]. apply IH. apply direct_step_share. exact H0.
Qed.

Lemma share_view_is_final_witness :
  let shared := [DirectHttp.Edit (TypeTripName (js "Weekend Trip"));
                 DirectHttp.Edit (TypeDestination (js "Boston, MA"));
                 DirectHttp.Edit (LocationFound {| lat := 40.7; lng := -74.0 |});
                 DirectHttp.Submit (Some alice) (answers 200 link_body)] in
  DirectHttp.showShareView
    (fold_left DirectHttp.step
       [DirectHttp.Submit None (answers 503 JNull); DirectHttp.Edit AddStop]
       (DirectHttp.after shared)) = true
  /\ DirectHttp.shareableLink
       (DirectHttp.after [DirectHttp.Submit None (answers 503 JNull)])
     = Value (JString []).
Proof.
  intros shared. split.
  - apply (proj2 (share_view_is_final shared
             [DirectHttp.Submit None (answers 503 JNull); DirectHttp.Edit AddStop])).
    reflexivity.
  - apply (proj1 (share_view_is_final [DirectHttp.Submit None (answers 503 JNull)] [])).
    reflexivity.
Defined.

(** ** The session over time *)

Lemma session_step_storage s a :
  Auth.localStorage (Session.step s a) = Auth.localStorage s
  \/ Auth.localStorage (Session.step s a) = delete (js "user") (Auth.localStorage s).
Proof.
  destruct a as [env|env|u]; cbn [Session.step].
  - unfold Auth.login. cbn [run]. destruct (env Auth.signInWithPopup); left; reflexivity.
  - unfold Auth.logout. cbn [run].
    destruct (env Auth.signOut); [right | left]; reflexivity.
  - left. destruct u; reflexivity.
Qed.

Lemma session_step_loading s a :
  Auth.loading (Session.step s a) = Auth.loading s && negb (Session.is_notify a).
Proof.
  destruct a as [env|env|u]; cbn [Session.step Session.is_notify negb].
  - unfold Auth.login. cbn [run].
    destruct (env Auth.signInWithPopup); cbn; rewrite andb_true_r; reflexivity.
  - unfold Auth.logout. cbn [run].
    destruct (env Auth.signOut); cbn; rewrite andb_true_r; reflexivity.
  - destruct u; cbn; rewrite andb_false_r; reflexivity.
Qed.

(** X15: the session manager never writes to local storage: after any
    sequence of logins, logouts and provider notifications the storage is
    what it was at the start, or that without the ["user"] entry; every
    other key keeps its value and no key is ever added. *)
Theorem session_storage_only_shrinks
    (storage : gmap jsstring jsstring) (actions : list Session.action) :
  let s := Session.after storage actions in
  (Auth.localStorage s = storage \/ Auth.localStorage s = delete (js "user") storage)
  /\ (forall key, key <> js "user" -> Auth.localStorage s !! key = storage !! key)
  /\ (forall key value, Auth.localStorage s !! key = Some value ->
      storage !! key = Some value).
Proof.
  intros s. subst s.
  assert (Auth.localStorage (Session.after storage actions) = storage
          \/ Auth.localStorage (Session.after storage actions)
             = delete (js "user") storage) as H.
  { unfold Session.after.
    assert (Auth.localStorage (Auth.initial storage) = storage
            \/ Auth.localStorage (Auth.initial storage) = delete (js "user") storage)
      as H0 by (left; reflexivity).
    revert H0. generalize (Auth.initial storage).
    induction actions as [|a actions IH]; intros s0 H0; [exact H0|].
    cbn [fold_left]. apply IH.
    destruct (session_step_storage s0 a) as [-> | ->]; [exact H0|].
    destruct H0 as [-> | ->]; [right; reflexivity|].
    right. apply delete_delete_eq. }
  split; [exact H|]. split.
  - intros key Hkey. destruct H as [-> | ->]; [reflexivity|].
    apply lookup_delete_ne. congruence.
  - intros key value. destruct H as [-> | ->]; [auto|].
    intros Hl. apply lookup_delete_Some in Hl as [_ Hl]. exact Hl.
Qed.

(** X16: the children of the provider are rendered exactly once the
    identity provider has notified the listener at least once: login and
    logout never touch the loading flag, a notification clears it, and
    nothing sets it again. *)
Theorem children_wait_for_first_notification
    (storage : gmap jsstring jsstring) (actions : list Session.action) :
  Auth.loading (Session.after storage actions)
  = negb (existsb Session.is_notify actions)
  /\ Session.children_rendered (Session.after storage actions)
     = existsb Session.is_notify actions.
Proof.
  assert (forall s0,
            Auth.loading (fold_left Session.step actions s0)
            = Auth.loading s0 && negb (existsb Session.is_notify actions)) as H.
  { induction actions as [|a actions IH]; intros s0; cbn [fold_left existsb].
    - rewrite andb_true_r. reflexivity.
    - rewrite IH, session_step_loading, negb_orb, andb_assoc. reflexivity. }
  unfold Session.children_rendered, Session.after. rewrite H. cbn.
  split; [reflexivity | apply negb_involutive].
Qed.

(** X17: a login whose provider call succeeds sets the session to the
    provider's uid, display name, e-mail and photo, logs nothing, and
    leaves the loading flag and local storage alone; the notification the
    provider then sends for the same user changes nothing but the loading
    flag. *)
Theorem login_sets_snapshot
    (s : Auth.State) (env : forall c, settled (Auth.reply c))
    (credential : Auth.UserCredential) :
  env Auth.signInWithPopup = Fulfilled credential ->
  let o := run env (Auth.login s) in
  let u := Auth.user credential in
  result o = Fulfilled tt
  /\ effects (trace o) = []
  /\ Auth.currentUser (final o)
     = Some {| Auth.uid := Auth.fb_uid u; Auth.displayName := Auth.fb_displayName u;
               Auth.email := Auth.fb_email u; Auth.photoURL := Auth.fb_photoURL u |}
  /\ Auth.loading (final o) = Auth.loading s
  /\ Auth.localStorage (final o) = Auth.localStorage s
  /\ Auth.authStateChanged (Some u) (final o) = Auth.setLoading false (final o).
Proof.
  intros Henv o u. subst o u. unfold Auth.login. cbn [run]. rewrite Henv.
  repeat split.
Qed.

Lemma login_sets_snapshot_witness :
  Auth.currentUser (final (run provider_up (Auth.login signed_in))) = Some alice
  /\ Auth.localStorage (final (run provider_up (Auth.login signed_in)))
     = Auth.localStorage signed_in.
Proof.
  destruct (login_sets_snapshot signed_in provider_up _ eq_refl)
    as (_ & _ & Hu & _ & Hs & _).
  split; [exact Hu | exact Hs].
Defined.

(** ** Entering and leaving a submission *)

(** X6: when [handleSubmit] accepts a draft, the state it has written by
    the time it reaches its first [await], the one the form is drawn
    from as the request goes out, is the submitted draft with the
    in-flight flag set and the error message cleared: the submit button
    is disabled and reads ["Creating..."] and no banner is shown.  What
    the user types while the request is under way is a matter of other
    handlers and is not stated here. *)
Theorem submit_locks_form
    (currentUser : option Auth.User) (random : nat -> number)
    (s : DirectHttp.State) (here : LatLng)
    (envB : forall c, settled (Delegated.reply c))
    (envA : forall c, settled (DirectHttp.reply c)) :
  let f := DirectHttp.form s in
  tripName f <> [] -> destination f <> [] -> currentLocation f = Some here ->
  (exists st,
      hd_error (pending (trace (run envB (Delegated.handleSubmit currentUser random f))))
      = Some st
      /\ st = setError [] (setIsLoading true f)
      /\ isLoading st = true /\ error st = []
      /\ submit_disabled st = true /\ submit_label st = js "Creating..."
      /\ error_shown st = false)
  /\ (exists st,
      hd_error (pending (trace (run envA (DirectHttp.handleSubmit currentUser s))))
      = Some st
      /\ st = DirectHttp.onForm (setError []) (DirectHttp.onForm (setIsLoading true) s)
      /\ isLoading (DirectHttp.form st) = true /\ error (DirectHttp.form st) = []
      /\ submit_disabled (DirectHttp.form st) = true
      /\ error_shown (DirectHttp.form st) = false
      /\ DirectHttp.showShareView st = DirectHttp.showShareView s
      /\ DirectHttp.shareableLink st = DirectHttp.shareableLink s).
Proof.
  intros f Hname Hdest Hloc.
  assert (incomplete f = false) as H.
  { apply incomplete_false. unfold complete. rewrite Hloc. eauto. }
  split.
  - exists (setError [] (setIsLoading true f)).
    split; [|repeat split].
    destruct (delegated_outcomes currentUser random envB f)
      as [[E _] | [(h & id & _ & _ & _ & Ho) | (h & err & _ & _ & _ & Ho)]];
      [congruence | rewrite Ho; reflexivity | rewrite Ho; reflexivity].
  - exists (DirectHttp.submitting s). split; [|repeat split].
    destruct (direct_cases currentUser envA s here H Hloc) as (_ & _ & _ & Hp & _).
    exact Hp.
Qed.

Lemma submit_locks_form_witness :
  exists st,
    hd_error (pending (trace (run declines
      (Delegated.handleSubmit (Some alice) half weekend)))) = Some st
    /\ submit_label st = js "Creating...".
Proof.
  destruct (submit_locks_form (Some alice) half weekend_shared
              {| lat := 40.7; lng := -74.0 |} declines (answers 200 link_body))
    as [(st & Hst & _ & _ & _ & _ & Hlabel & _) _];
    [discriminate | discriminate | reflexivity |].
  exists st. split; [exact Hst | exact Hlabel].
Defined.

(** X7: a submission, however it ends, leaves the draft itself (name,
    destination, stops, pending stop text, suggestions, origin) as it
    was.  Submitting again therefore posts the same request in the
    posting revision; in the delegating revision, where the mock
    coordinates are drawn afresh, the second request agrees with the
    first in name, origin, destination name, stop names, stop ids,
    participants and creator. *)
Theorem submit_keeps_draft
    (currentUser : option Auth.User) (random random' : nat -> number)
    (s : DirectHttp.State)
    (envB envB' : forall c, settled (Delegated.reply c))
    (envA envA' : forall c, settled (DirectHttp.reply c)) :
  let f := DirectHttp.form s in
  let first := run envB (Delegated.handleSubmit currentUser random f) in
  let again := run envB' (Delegated.handleSubmit currentUser random' (final first)) in
  let posted := run envA (DirectHttp.handleSubmit currentUser s) in
  let reposted := run envA' (DirectHttp.handleSubmit currentUser (final posted)) in
  (tripName (final first) = tripName f /\ destination (final first) = destination f
   /\ stops (final first) = stops f /\ newStop (final first) = newStop f
   /\ suggestions (final first) = suggestions f
   /\ currentLocation (final first) = currentLocation f)
  /\ ((calls (trace first) = [] /\ calls (trace again) = [])
      \/ (exists t t',
            calls (trace first) = [Delegated.createTrip t]
            /\ calls (trace again) = [Delegated.createTrip t']
            /\ Delegated.TripData.name t' = Delegated.TripData.name t
            /\ Delegated.TripData.origin t' = Delegated.TripData.origin t
            /\ Delegated.Place.name (Delegated.TripData.destination t')
               = Delegated.Place.name (Delegated.TripData.destination t)
            /\ map Delegated.Stop.name (Delegated.TripData.stops t')
               = map Delegated.Stop.name (Delegated.TripData.stops t)
            /\ map Delegated.Stop.id (Delegated.TripData.stops t')
               = map Delegated.Stop.id (Delegated.TripData.stops t)
            /\ Delegated.TripData.participants t' = Delegated.TripData.participants t
            /\ Delegated.TripData.createdBy t' = Delegated.TripData.createdBy t))
  /\ (tripName (DirectHttp.form (final posted)) = tripName f
      /\ destination (DirectHttp.form (final posted)) = destination f
      /\ stops (DirectHttp.form (final posted)) = stops f
      /\ newStop (DirectHttp.form (final posted)) = newStop f
      /\ suggestions (DirectHttp.form (final posted)) = suggestions f
      /\ currentLocation (DirectHttp.form (final posted)) = currentLocation f)
  /\ List.filter DirectHttp.is_fetch (calls (trace reposted))
     = List.filter DirectHttp.is_fetch (calls (trace posted)).
Proof.
  intros f first again posted reposted. subst first again posted reposted.
  destruct (delegated_final_shape currentUser random envB f) as (b & e & Hfb).
  destruct (direct_final_shape currentUser envA s) as (b' & e' & Hsa).
  split; [rewrite Hfb; repeat split|].
  split; [|split; [rewrite Hsa; repeat split|]].
  - rewrite Hfb, !delegated_calls.
    change (incomplete (setIsLoading b (setError e f))) with (incomplete f).
    change (currentLocation (setIsLoading b (setError e f))) with (currentLocation f).
    destruct (incomplete f); [left; split; reflexivity|].
    destruct (currentLocation f) as [here|]; [|left; split; reflexivity].
    right. eexists _, _. split; [reflexivity|]. split; [reflexivity|].
    unfold Delegated.tripData.
    cbn [Delegated.TripData.name Delegated.TripData.origin Delegated.TripData.destination
         Delegated.TripData.stops Delegated.TripData.participants
         Delegated.TripData.createdBy Delegated.Place.name
         stops setIsLoading setError].
    rewrite !map_from_map. cbn [Delegated.Stop.name Delegated.Stop.id].
    repeat split.
  - assert (forall env' s',
              List.filter DirectHttp.is_fetch
                (calls (trace (run env' (DirectHttp.handleSubmit currentUser s'))))
              = if incomplete (DirectHttp.form s') then []
                else match currentLocation (DirectHttp.form s') with
                     | Some here =>
                         [DirectHttp.request
                            (DirectHttp.tripData currentUser here (DirectHttp.form s'))]
                     | None => []
                     end) as Hfetch.
    { intros env' s'. destruct (incomplete (DirectHttp.form s')) eqn:H.
      - rewrite direct_blocked by exact H. reflexivity.
      - destruct (complete_located _ H) as [here Hloc]. rewrite Hloc.
        destruct (direct_cases currentUser env' s' here H Hloc) as (_ & Hc & _).
        exact Hc. }
    rewrite !Hfetch, Hsa. reflexivity.
Qed.
